(** * convert_series.py

    A shallow embedding of the script [convert_series.py] and the proofs of
    the properties its specification states.

    The script reads a text file line by line, turns every non-blank line
    into a record [{id, title, year, rating}] and prints the list of
    records as JSON.  It is twenty lines of module-level code that lean on
    a handful of Python built-ins ([str.strip], [in], [str.split], [int],
    [str], [enumerate], [open], [json.dump]); the first part of this file
    embeds those built-ins as CPython (3.6 and later) implements them, the
    second the script itself, statement by statement, and the rest states
    and proves the properties. *)

From Stdlib Require Import ZArith NArith List Bool Lia String Ascii.
From Stdlib Require Import DecimalPos DecimalZ Sorted FinFun.
Import ListNotations.

(** ** Text

    A Python [str] is a sequence of Unicode code points. *)

Definition char := N.
Definition unicode := list char.

(** String literals of this file are written as UTF-8 text; [lit] reads
    the bytes of the literal back into code points (one to four bytes per
    code point). *)

Fixpoint bytes_of (s : string) : list N :=
  match s with
  | EmptyString => []
  | String a r => N_of_ascii a :: bytes_of r
  end.

Fixpoint utf8 (bs : list N) : unicode :=
  match bs with
  | [] => []
  | b :: r =>
      if (b <? 128)%N then b :: utf8 r
      else if (b <? 224)%N then
        match r with
        | b1 :: r1 => ((b - 192) * 64 + (b1 - 128))%N :: utf8 r1
        | _ => []
        end
      else if (b <? 240)%N then
        match r with
        | b1 :: b2 :: r2 =>
            ((b - 224) * 4096 + (b1 - 128) * 64 + (b2 - 128))%N :: utf8 r2
        | _ => []
        end
      else
        match r with
        | b1 :: b2 :: b3 :: r3 =>
            ((b - 240) * 262144 + (b1 - 128) * 4096
             + (b2 - 128) * 64 + (b3 - 128))%N :: utf8 r3
        | _ => []
        end
  end.

Definition lit (s : string) : unicode := utf8 (bytes_of s).

(** A few code points the script and the JSON encoder name. *)

Definition SPACE : char := 32%N.
Definition EM_DASH : char := 8212%N.
Definition NEWLINE : char := 10%N.
Definition QUOTE : char := 34%N.
Definition UNDERSCORE : char := 95%N.

(** ** Exceptions

    The exceptions that can occur in the script.  In Python
    [UnicodeDecodeError] and [UnicodeEncodeError] are subclasses of
    [ValueError]. *)

Inductive exn : Type :=
| ValueError
| UnicodeDecodeError
| UnicodeEncodeError
| OSError.

Definition isinstance_ValueError (e : exn) : bool :=
  match e with
  | ValueError | UnicodeDecodeError | UnicodeEncodeError => true
  | OSError => false
  end.

Inductive result (A : Type) : Type :=
| Ok (a : A)
| Raise (e : exn).

Arguments Ok {A} a.
Arguments Raise {A} e.

Definition bind {A B} (r : result A) (k : A -> result B) : result B :=
  match r with
  | Ok a => k a
  | Raise e => Raise e
  end.

Notation "x <- c ;; k" := (bind c (fun x => k))
  (at level 61, c at next level, right associativity).
Notation "' pat <- c ;; k" := (bind c (fun x => match x with pat => k end))
  (at level 61, pat pattern, c at next level, right associativity).

(** [try: body / except ValueError: handler]. *)

Definition try_except_ValueError {A} (body : result A) (handler : result A)
  : result A :=
  match body with
  | Ok a => Ok a
  | Raise e => if isinstance_ValueError e then handler else Raise e
  end.

(** ** The interpreter

    Two things [int()] consults belong to the interpreter that runs the
    script and not to the script: the decimal digits of the Unicode
    database (they grow with every Unicode version) and the limit on the
    number of digits of a decimal literal ([sys.get_int_max_str_digits()],
    where [0] means no limit, which is also the behaviour of the
    interpreters that predate the limit).

    Unicode encodes the decimal digits of a script as ten consecutive code
    points in ascending order, so the database is given by its digits
    zero. *)

Record interp : Type := {
  decimal_zeros : list char;
  max_str_digits : N
}.

(** [Py_UNICODE_TODECIMAL]: the value of a decimal digit ([None] for the
    [-1] of the C function). *)

Definition Py_UNICODE_TODECIMAL (py : interp) (c : char) : option N :=
  match List.find (fun z => (z <=? c) && (c <? z + 10))%N (decimal_zeros py) with
  | Some z => Some (c - z)%N
  | None => None
  end.

(** CPython 3.11 with its default settings: the digits zero of general
    category Nd in Unicode 14.0.0, and at most 4300 digits. *)

Definition cpython : interp :=
  {| decimal_zeros :=
       [48; 1632; 1776; 1984; 2406; 2534; 2662; 2790; 2918; 3046; 3174;
        3302; 3430; 3558; 3664; 3792; 3872; 4160; 4240; 6112; 6160; 6470;
        6608; 6784; 6800; 6992; 7088; 7232; 7248; 42528; 43216; 43264;
        43472; 43504; 43600; 44016; 65296; 66720; 68912; 69734; 69872;
        69942; 70096; 70384; 70736; 70864; 71248; 71360; 71472; 71904;
        72016; 72784; 73040; 73120; 92768; 92864; 93008; 120782; 120792;
        120802; 120812; 120822; 123200; 123632; 125264; 130032]%N;
     max_str_digits := 4300 |}.

(** ** Built-ins *)

Module Py.

(** [Py_UNICODE_ISSPACE]: the code points [str.strip()] removes and
    [str.isspace()] accepts. *)

Definition isspace (c : char) : bool :=
  ((9 <=? c) && (c <=? 13) || (28 <=? c) && (c <=? 32)
   || (c =? 133) || (c =? 160) || (c =? 5760)
   || (8192 <=? c) && (c <=? 8202)
   || (c =? 8232) || (c =? 8233) || (c =? 8239) || (c =? 8287)
   || (c =? 12288))%N.

(** [str.strip()] with no argument: drop white space from the left, then
    from the right. *)

Fixpoint lstrip (s : unicode) : unicode :=
  match s with
  | [] => []
  | c :: r => if isspace c then lstrip r else s
  end.

Definition rstrip (s : unicode) : unicode := rev (lstrip (rev s)).

Definition strip (s : unicode) : unicode := rstrip (lstrip s).

(** [s.startswith(sub)]. *)

Fixpoint startswith (sub s : unicode) : bool :=
  match sub, s with
  | [], _ => true
  | _ :: _, [] => false
  | a :: sub', b :: s' => (a =? b)%N && startswith sub' s'
  end.

(** [s.find(sub)]: the lowest index at which [sub] occurs in [s]
    ([None] for Python's [-1]). *)

Fixpoint find (sub s : unicode) {struct s} : option nat :=
  if startswith sub s then Some 0%nat
  else match s with
       | [] => None
       | _ :: r => option_map S (find sub r)
       end.

(** [sub in s]. *)

Definition contains (sub s : unicode) : bool :=
  match find sub s with
  | Some _ => true
  | None => false
  end.

(** [s.split(sep, maxsplit)] for a non-empty [sep] and [maxsplit >= 0]: cut
    at the leftmost occurrences, at most [maxsplit] times. *)

Fixpoint split (sep : unicode) (maxsplit : nat) (s : unicode) : list unicode :=
  match maxsplit with
  | O => [s]
  | S m =>
      match find sep s with
      | None => [s]
      | Some k =>
          firstn k s :: split sep m (skipn (k + List.length sep) s)
      end
  end.

(** [str(i)] for an [int]: the decimal digits, with a minus sign for a
    negative number. *)

Fixpoint uint_chars (d : Decimal.uint) : unicode :=
  match d with
  | Decimal.Nil => []
  | Decimal.D0 d => 48%N :: uint_chars d
  | Decimal.D1 d => 49%N :: uint_chars d
  | Decimal.D2 d => 50%N :: uint_chars d
  | Decimal.D3 d => 51%N :: uint_chars d
  | Decimal.D4 d => 52%N :: uint_chars d
  | Decimal.D5 d => 53%N :: uint_chars d
  | Decimal.D6 d => 54%N :: uint_chars d
  | Decimal.D7 d => 55%N :: uint_chars d
  | Decimal.D8 d => 56%N :: uint_chars d
  | Decimal.D9 d => 57%N :: uint_chars d
  end.

Definition str (i : Z) : unicode :=
  match Z.to_int i with
  | Decimal.Pos d => uint_chars d
  | Decimal.Neg d => 45%N :: uint_chars d
  end.

(** *** [int(s)] for a [str], base 10

    Since Python 3.6 a single underscore may stand between two digits.
    [PyLong_FromUnicodeObject] first rewrites the string to ASCII
    ([_PyUnicode_TransformDecimalAndSpaceToASCII]): a code point below 127
    is kept, any other white space becomes a space, any other decimal
    digit its ASCII digit, and at anything else the result is cut short
    with a question mark. *)

Section Int.

Variable py : interp.

Fixpoint TransformDecimalAndSpaceToASCII (s : unicode) : unicode :=
  match s with
  | [] => []
  | ch :: r =>
      if (ch <? 127)%N then ch :: TransformDecimalAndSpaceToASCII r
      else if isspace ch then SPACE :: TransformDecimalAndSpaceToASCII r
      else match Py_UNICODE_TODECIMAL py ch with
           | Some decimal => (48 + decimal)%N :: TransformDecimalAndSpaceToASCII r
           | None => [63%N]
           end
  end.

(** [Py_ISSPACE]: the white space of the C locale. *)

Definition Py_ISSPACE (c : char) : bool :=
  ((9 <=? c) && (c <=? 13) || (c =? 32))%N.

Fixpoint skip_space (s : unicode) : unicode :=
  match s with
  | [] => []
  | c :: r => if Py_ISSPACE c then skip_space r else s
  end.

(** [_PyLong_DigitValue[c] < 10]. *)

Definition DigitValue (c : char) : option Z :=
  if ((48 <=? c) && (c <=? 57))%N then Some (Z.of_N (c - 48)) else None.

(** The scan of [long_from_string_base]: digits and underscores, never two
    underscores in a row and none at the end; [prev] is the character
    before the cursor and [digits] counts the digits seen.  The C code
    validates in one pass and accumulates the value in a second one that
    skips the underscores; here both happen in the same pass.  The result
    is the value, the number of digits and the text left. *)

Fixpoint scan (prev : char) (acc : Z) (digits : N) (s : unicode)
  : option (Z * N * unicode) :=
  match s with
  | [] => if (prev =? UNDERSCORE)%N then None else Some (acc, digits, [])
  | c :: r =>
      match DigitValue c with
      | Some d => scan c (10 * acc + d)%Z (digits + 1)%N r
      | None =>
          if (c =? UNDERSCORE)%N then
            if (prev =? UNDERSCORE)%N then None else scan c acc digits r
          else
            if (prev =? UNDERSCORE)%N then None else Some (acc, digits, s)
      end
  end.

(** [_PY_LONG_MAX_STR_DIGITS_THRESHOLD]: below it the limit is not
    consulted. *)

Definition MAX_STR_DIGITS_THRESHOLD : N := 640.

Definition exceeds_limit (digits : N) : bool :=
  ((MAX_STR_DIGITS_THRESHOLD <? digits)
   && (0 <? max_str_digits py) && (max_str_digits py <? digits))%N.

(** [PyLong_FromString(str, &end, 10)] together with the test of
    [PyLong_FromUnicodeObject] that [end] is the end of the buffer: leading
    white space, a sign, the digits (not starting with an underscore, not
    empty), trailing white space, and nothing else.  Every failure is a
    [ValueError]. *)

Definition strip_sign (s : unicode) : Z * unicode :=
  match s with
  | [] => (1%Z, [])
  | c :: r =>
      if (c =? 43)%N then (1%Z, r)
      else if (c =? 45)%N then ((-1)%Z, r)
      else (1%Z, s)
  end.

Definition leading_underscore (s : unicode) : bool :=
  match s with
  | [] => false
  | c :: _ => (c =? UNDERSCORE)%N
  end.

Definition PyLong_FromString (s : unicode) : result Z :=
  let '(sign, s) := strip_sign (skip_space s) in
  if leading_underscore s then Raise ValueError
  else
    match scan 0%N 0%Z 0%N s with
    | None => Raise ValueError
    | Some (z, digits, rest) =>
        if (digits =? 0)%N then Raise ValueError
        else if exceeds_limit digits then Raise ValueError
        else match skip_space rest with
             | [] => Ok (sign * z)%Z
             | _ :: _ => Raise ValueError
             end
    end.

Definition int (s : unicode) : result Z :=
  PyLong_FromString (TransformDecimalAndSpaceToASCII s).

End Int.

End Py.

(** ** [json.dump(items, sys.stdout, ensure_ascii=False, indent=2)]

    The encoder of the [json] module for the one shape of value the script
    gives it: a list of dictionaries with the keys [id], [title], [year],
    [rating] in this order. *)

Record item : Type := {
  id : unicode;
  title : unicode;
  year : option Z;
  rating : Z
}.

Module Json.

Definition hex (n : N) : char := (if n <? 10 then 48 + n else 87 + n)%N.

(** [encode_basestring]: with [ensure_ascii=False] only the quote, the
    backslash and the control characters below U+0020 are escaped. *)

Definition escape (c : char) : unicode :=
  if (c =? 34)%N then [92; 34]%N
  else if (c =? 92)%N then [92; 92]%N
  else if (c =? 10)%N then [92; 110]%N
  else if (c =? 13)%N then [92; 114]%N
  else if (c =? 9)%N then [92; 116]%N
  else if (c =? 8)%N then [92; 98]%N
  else if (c =? 12)%N then [92; 102]%N
  else if (c <? 32)%N then [92; 117; 48; 48; hex (c / 16); hex (c mod 16)]%N
  else [c].

Definition encode_basestring (s : unicode) : unicode :=
  QUOTE :: flat_map escape s ++ [QUOTE].

Definition encode_year (y : option Z) : unicode :=
  match y with
  | Some z => Py.str z
  | None => lit "null"
  end.

(** One member of a dictionary at nesting level 2. *)

Definition member (key value : unicode) : unicode :=
  encode_basestring key ++ lit ": " ++ value.

Definition newline_indent (level : nat) : unicode :=
  NEWLINE :: repeat SPACE (2 * level).

Fixpoint join (sep : unicode) (l : list unicode) : unicode :=
  match l with
  | [] => []
  | [x] => x
  | x :: r => x ++ sep ++ join sep r
  end.

Definition encode_item (it : item) : unicode :=
  lit "{" ++ newline_indent 2
  ++ join (lit "," ++ newline_indent 2)
       [ member (lit "id") (encode_basestring (id it));
         member (lit "title") (encode_basestring (title it));
         member (lit "year") (encode_year (year it));
         member (lit "rating") (Py.str (rating it)) ]
  ++ newline_indent 1 ++ lit "}".

Definition dumps (items : list item) : unicode :=
  match items with
  | [] => lit "[]"
  | _ :: _ =>
      lit "[" ++ newline_indent 1
      ++ join (lit "," ++ newline_indent 1) (map encode_item items)
      ++ newline_indent 0 ++ lit "]"
  end.

(** [iterencode]: the encoder yields the text in chunks, and [json.dump]
    writes them one by one.  For a dictionary: the brace, the indentation,
    then per member the key, the colon, the value and, between members,
    the comma with the indentation; for the list: the bracket with the
    indentation before the first dictionary, the comma with the
    indentation before every other one, and at the end the line break and
    the closing bracket. *)

Definition item_chunks (it : item) : list unicode :=
  [ lit "{"; newline_indent 2;
    encode_basestring (lit "id"); lit ": "; encode_basestring (id it);
    lit "," ++ newline_indent 2;
    encode_basestring (lit "title"); lit ": "; encode_basestring (title it);
    lit "," ++ newline_indent 2;
    encode_basestring (lit "year"); lit ": "; encode_year (year it);
    lit "," ++ newline_indent 2;
    encode_basestring (lit "rating"); lit ": "; Py.str (rating it);
    newline_indent 1; lit "}" ].

Fixpoint items_chunks (buf : unicode) (items : list item) : list unicode :=
  match items with
  | [] => []
  | it :: rest =>
      buf :: item_chunks it ++ items_chunks (lit "," ++ newline_indent 1) rest
  end.

Definition iterencode (items : list item) : list unicode :=
  match items with
  | [] => [lit "[]"]
  | _ :: _ =>
      items_chunks (lit "[" ++ newline_indent 1) items
      ++ [newline_indent 0; lit "]"]
  end.

End Json.

(** ** The script

    Iterating over the open file yields its lines one after the other and
    may fail at any point (a byte sequence that is not UTF-8, an I/O
    error): a [stream] is what the [for] statement sees of the file. *)

Inductive stream : Type :=
| Eof
| Err (e : exn)
| Line (line : unicode) (rest : stream).

Fixpoint of_lines (lines : list unicode) : stream :=
  match lines with
  | [] => Eof
  | line :: rest => Line line (of_lines rest)
  end.

(** The separator [" — "] of the script. *)

Definition sep : unicode := lit " — ".

(** Line 3: [path = sys.argv[1] if len(sys.argv) > 1 else "series.txt"]. *)

Definition path (argv : list unicode) : unicode :=
  if (1 <? List.length argv)%nat then nth 1%nat argv [] else lit "series.txt".

Section Script.

Variable py : interp.

(** Lines 8 to 27: the body of the [for] statement for line number [i],
    as a transformer of the list [items]. *)

Definition loop_body (i : Z) (line : unicode) (items : list item)
  : result (list item) :=
  let line := Py.strip line in
  match line with
  | [] => Ok items                                        (* continue *)
  | _ :: _ =>
      ' (title, year) <-
        (if Py.contains sep line then
           match Py.split sep 1 line with
           | [title; year_str] =>
               let title := Py.strip title in
               let year_str := Py.strip year_str in
               year <- try_except_ValueError
                         (y <- Py.int py year_str ;; Ok (Some y))
                         (Ok None) ;;
               Ok (title, year)
           | _ => Raise ValueError            (* unpacking would fail *)
           end
         else Ok (line, None)) ;;
      Ok (items ++ [ {| id := Py.str i; title := title;
                        year := year; rating := 0 |} ])
  end.

(** Line 7: [for i, line in enumerate(f, start=1)]. *)

Fixpoint for_loop (i : Z) (f : stream) (items : list item)
  : result (list item) :=
  match f with
  | Eof => Ok items
  | Err e => Raise e
  | Line line rest =>
      items' <- loop_body i line items ;;
      for_loop (i + 1) rest items'
  end.

(** The transformation from lines to records: lines 5 to 27 on a file
    that is read without failure. *)

Definition convert (lines : list unicode) : result (list item) :=
  for_loop 1 (of_lines lines) [].

(** The whole script as a process: what has been written to standard
    output so far is the state, and an exception leaves it as it is. *)

Definition proc (A : Type) : Type := unicode -> result A * unicode.

Definition pure {A} (r : result A) : proc A := fun out => (r, out).

Definition and_then {A B} (p : proc A) (k : A -> proc B) : proc B :=
  fun out =>
    match p out with
    | (Ok a, out') => k a out'
    | (Raise e, out') => (Raise e, out')
    end.

(** Standard output is a device that takes a text or refuses it:
    [stdout out s] is [None] when [sys.stdout.write(s)] succeeds after
    [out] has been written, and the exception it raises otherwise (the
    text cannot be encoded, the pipe is closed); a refused text is not
    written. *)

Variable stdout : unicode -> unicode -> option exn.

Definition write (s : unicode) : proc unit :=
  fun out =>
    match stdout out s with
    | None => (Ok tt, out ++ s)
    | Some e => (Raise e, out)
    end.

(** Line 29: [json.dump(items, sys.stdout, ensure_ascii=False, indent=2)]
    is [for chunk in iterable: fp.write(chunk)]. *)

Fixpoint write_chunks (chunks : list unicode) : proc unit :=
  match chunks with
  | [] => pure (Ok tt)
  | chunk :: rest => and_then (write chunk) (fun _ => write_chunks rest)
  end.

Definition json_dump (items : list item) : proc unit :=
  write_chunks (Json.iterencode items).

(** [open] is the file system as the script meets it: the stream of the
    file at a path, or the exception of [open()]. *)

Definition script (argv : list unicode) (open : unicode -> result stream)
  : proc unit :=
  and_then (pure (f <- open (path argv) ;; for_loop 1 f []))
    (fun items => json_dump items).

(** A run of the interpreter on the script: the exit status (1 after an
    uncaught exception) and the text on standard output. *)

Definition run (argv : list unicode) (open : unicode -> result stream)
  : Z * unicode :=
  match script argv open [] with
  | (Ok _, out) => (0%Z, out)
  | (Raise _, out) => (1%Z, out)
  end.

End Script.

(** ** Vocabulary of the specification *)

(** [sub] occurs in [s]. *)

Definition occurs (sub s : unicode) : Prop :=
  exists a b, s = a ++ sub ++ b.

(** [s = a ++ sub ++ b] cuts [s] at the first occurrence of [sub]. *)

Definition first_occurrence (sub a b s : unicode) : Prop :=
  s = a ++ sub ++ b /\
  forall a' b', s = a' ++ sub ++ b' -> (List.length a <= List.length a')%nat.

Definition whitespace (ws : unicode) : Prop :=
  Forall (fun c => Py.isspace c = true) ws.

(** A text that neither starts nor ends with white space. *)

Definition stripped (s : unicode) : Prop :=
  (forall c r, s = c :: r -> Py.isspace c = false) /\
  (forall u c, s = u ++ [c] -> Py.isspace c = false).

(** A line is blank when nothing is left of it after stripping. *)

Definition blank (line : unicode) : bool :=
  match Py.strip line with
  | [] => true
  | _ :: _ => false
  end.

(** [enumerate(lines, start)] as a list of pairs. *)

Fixpoint enumerate (start : Z) (lines : list unicode) : list (Z * unicode) :=
  match lines with
  | [] => []
  | line :: rest => (start, line) :: enumerate (start + 1) rest
  end.

(** The non-blank lines of the input, each with its 1-based position in
    the whole input. *)

Definition nonblank_lines (lines : list unicode) : list (Z * unicode) :=
  filter (fun p => negb (blank (snd p))) (enumerate 1 lines).

(** Reading a stream to its end: all its lines, or the exception that
    interrupts the reading. *)

Fixpoint lines_of (f : stream) : result (list unicode) :=
  match f with
  | Eof => Ok []
  | Err e => Raise e
  | Line line rest => lines <- lines_of rest ;; Ok (line :: lines)
  end.

(** The record of a non-blank line, as a total function: what
    [loop_body] is shown to append. *)

Definition year_of (r : result Z) : option Z :=
  match r with
  | Ok v => Some v
  | Raise _ => None
  end.

Definition record (py : interp) (i : Z) (line : unicode) : option item :=
  match Py.strip line with
  | [] => None
  | l =>
      Some
        match Py.find sep l with
        | Some k =>
            {| id := Py.str i;
               title := Py.strip (firstn k l);
               year := year_of (Py.int py (Py.strip (skipn (k + 3) l)));
               rating := 0 |}
        | None =>
            {| id := Py.str i; title := l; year := None; rating := 0 |}
        end
  end.

Definition emitted (o : option item) : list item :=
  match o with
  | Some it => [it]
  | None => []
  end.

(** *** The literals [int()] accepts

    For [int()] a decimal digit is an ASCII digit or, beyond ASCII, a code
    point with the decimal property. *)

Definition decimal_digit (py : interp) (c : char) : option Z :=
  if (c <? 127)%N then
    if ((48 <=? c) && (c <=? 57))%N then Some (Z.of_N (c - 48)) else None
  else if Py.isspace c then None
  else option_map Z.of_N (Py_UNICODE_TODECIMAL py c).

(** What may follow a digit: nothing, a digit, or one underscore and a
    digit; the second index lists the values of the digits. *)

Inductive numeral_tail (digit : char -> option Z) : unicode -> list Z -> Prop :=
| tail_end : numeral_tail digit [] []
| tail_digit c d s ds :
    digit c = Some d -> numeral_tail digit s ds ->
    numeral_tail digit (c :: s) (d :: ds)
| tail_underscore c d s ds :
    digit c = Some d -> numeral_tail digit s ds ->
    numeral_tail digit (UNDERSCORE :: c :: s) (d :: ds).

Inductive numeral (digit : char -> option Z) : unicode -> list Z -> Prop :=
| numeral_intro c d s ds :
    digit c = Some d -> numeral_tail digit s ds ->
    numeral digit (c :: s) (d :: ds).

Definition value (ds : list Z) : Z :=
  fold_left (fun acc d => 10 * acc + d)%Z ds 0%Z.

Inductive sign_prefix : unicode -> Z -> Prop :=
| sign_none : sign_prefix [] 1%Z
| sign_plus : sign_prefix [43%N] 1%Z
| sign_minus : sign_prefix [45%N] (-1)%Z.

(** [s] is a literal of [int()] with value [v]: an optional sign, digits
    with single underscores between them, and no more digits than the
    interpreter allows. *)

Definition int_literal (py : interp) (s : unicode) (v : Z) : Prop :=
  exists sg sign body ds,
    s = sg ++ body /\ sign_prefix sg sign /\
    numeral (decimal_digit py) body ds /\
    Py.exceeds_limit py (N.of_nat (List.length ds)) = false /\
    v = (sign * value ds)%Z.

(** What the rewriting to ASCII of [int()] does to one code point
    ([None] where it stops with a question mark). *)

Definition to_ascii (py : interp) (c : char) : option char :=
  if (c <? 127)%N then Some c
  else if Py.isspace c then Some SPACE
  else option_map (N.add 48) (Py_UNICODE_TODECIMAL py c).

(** *** The year text of the specification

    An optional sign and then the digits [0] to [9], nothing else. *)

Fixpoint digits_value (acc : Z) (s : unicode) : option Z :=
  match s with
  | [] => Some acc
  | c :: r =>
      if ((48 <=? c) && (c <=? 57))%N
      then digits_value (10 * acc + Z.of_N (c - 48)) r
      else None
  end.

Definition unsigned_integer (s : unicode) : option Z :=
  match s with
  | [] => None
  | _ :: _ => digits_value 0 s
  end.

Definition plain_integer (s : unicode) : option Z :=
  match s with
  | [] => None
  | c :: r =>
      if (c =? 43)%N then unsigned_integer r
      else if (c =? 45)%N then option_map Z.opp (unsigned_integer r)
      else unsigned_integer s
  end.

(** *** Reading the JSON text back

    The inverse of the string escapes of the encoder: [read_string] reads
    the text that follows an opening quote up to the closing quote and
    returns the string and the text after the closing quote. *)

Definition unhex (h : char) : N :=
  (if h <? 58 then h - 48 else h - 87)%N.

Definition unescape (x : char) : char :=
  if (x =? 110)%N then 10%N
  else if (x =? 114)%N then 13%N
  else if (x =? 116)%N then 9%N
  else if (x =? 98)%N then 8%N
  else if (x =? 102)%N then 12%N
  else x.

Definition read_more (c : char) (o : option (unicode * unicode))
  : option (unicode * unicode) :=
  match o with
  | Some (s, rest) => Some (c :: s, rest)
  | None => None
  end.

Fixpoint read_string (s : unicode) : option (unicode * unicode) :=
  match s with
  | [] => None
  | c :: r =>
      if (c =? 34)%N then Some ([], r)
      else if (c =? 92)%N then
        match r with
        | [] => None
        | x :: r1 =>
            if (x =? 117)%N then
              match r1 with
              | _ :: _ :: h1 :: h2 :: r2 =>
                  read_more (unhex h1 * 16 + unhex h2)%N (read_string r2)
              | _ => None
              end
            else read_more (unescape x) (read_string r1)
        end
      else read_more c (read_string r)
  end.

(** The characters of the decimal form of an integer, and the longest
    run of them at the start of a text. *)

Definition int_char (c : char) : bool :=
  ((c =? 45) || (48 <=? c) && (c <=? 57))%N.

Fixpoint int_span (s : unicode) : unicode * unicode :=
  match s with
  | [] => ([], [])
  | c :: r =>
      if int_char c then let (a, b) := int_span r in (c :: a, b)
      else ([], s)
  end.

(** A character the encoder prints as it is. *)

Definition printed_as_is (c : char) : bool :=
  (negb (c =? 34) && negb (c =? 92) && (32 <=? c))%N.

(** The same interpreter with the digit limit switched off
    ([PYTHONINTMAXSTRDIGITS=0]). *)

Definition cpython_unlimited : interp :=
  {| decimal_zeros := decimal_zeros cpython; max_str_digits := 0 |}.

(** Standard output takes every one of the chunks, written one after the
    other after [out]. *)

Fixpoint accepted (stdout : unicode -> unicode -> option exn)
  (out : unicode) (chunks : list unicode) : Prop :=
  match chunks with
  | [] => True
  | chunk :: rest =>
      stdout out chunk = None /\ accepted stdout (out ++ chunk) rest
  end.

(** Two devices: one that takes everything, and one whose encoding is
    ASCII. *)

Definition any_text : unicode -> unicode -> option exn := fun _ _ => None.

Definition ascii_only : unicode -> unicode -> option exn :=
  fun _ s =>
    if forallb (fun c => (c <? 128)%N) s then None
    else Some UnicodeEncodeError.

(** The number of line breaks of a text. *)

Definition newlines (s : unicode) : nat :=
  List.length (filter (N.eqb NEWLINE) s).

(** * Proofs *)

(** Boolean comparisons of code points as propositions, for [lia]. *)

Ltac nbool :=
  repeat rewrite ?andb_true_iff, ?orb_true_iff, ?andb_false_iff,
    ?orb_false_iff, ?N.leb_le, ?N.ltb_lt, ?N.eqb_eq, ?N.leb_gt, ?N.ltb_ge,
    ?N.eqb_neq in *.

(** ** White space and [strip] *)

Lemma sep_eq : sep = [SPACE; EM_DASH; SPACE].
Proof. reflexivity. Qed.

Lemma lstrip_head s c r : Py.lstrip s = c :: r -> Py.isspace c = false.
Proof.
  induction s as [|a s IH]; simpl; [discriminate|].
  destruct (Py.isspace a) eqn:E; auto.
  intros [= <- _]; exact E.
Qed.

Lemma lstrip_suffix s : exists ws, s = ws ++ Py.lstrip s /\ whitespace ws.
Proof.
  induction s as [|a s (ws & Hs & Hws)]; simpl.
  - exists []; split; [reflexivity | constructor].
  - destruct (Py.isspace a) eqn:E.
    + exists (a :: ws); split; [simpl; congruence | constructor; assumption].
    + exists []; split; [reflexivity | constructor].
Qed.

Lemma lstrip_whitespace ws s : whitespace ws -> Py.lstrip (ws ++ s) = Py.lstrip s.
Proof.
  induction 1 as [|c ws Hc _ IH]; simpl; [reflexivity|].
  now rewrite Hc.
Qed.

Lemma lstrip_app l r : Py.lstrip l <> [] -> Py.lstrip (l ++ r) = Py.lstrip l ++ r.
Proof.
  induction l as [|a l IH]; simpl; [congruence|].
  destruct (Py.isspace a); auto.
Qed.

Lemma lstrip_app_nonspace l c r :
  Py.isspace c = false -> Py.lstrip (l ++ c :: r) = Py.lstrip l ++ c :: r.
Proof.
  intros Hc; induction l as [|a l IH]; simpl.
  - now rewrite Hc.
  - destruct (Py.isspace a); auto.
Qed.

Lemma whitespace_rev ws : whitespace ws -> whitespace (rev ws).
Proof. unfold whitespace; intros H; now apply Forall_rev. Qed.

Lemma rstrip_whitespace s ws : whitespace ws -> Py.rstrip (s ++ ws) = Py.rstrip s.
Proof.
  intros H; unfold Py.rstrip.
  now rewrite rev_app_distr, lstrip_whitespace by now apply whitespace_rev.
Qed.

Lemma rstrip_all_whitespace ws : whitespace ws -> Py.rstrip ws = [].
Proof. intros H; now rewrite <- (app_nil_l ws), rstrip_whitespace. Qed.

Lemma rstrip_app_nonspace l c r :
  Py.isspace c = false -> Py.rstrip (l ++ c :: r) = l ++ c :: Py.rstrip r.
Proof.
  intros Hc; unfold Py.rstrip.
  rewrite rev_app_distr; simpl rev; rewrite <- app_assoc; simpl.
  rewrite lstrip_app_nonspace by assumption.
  rewrite rev_app_distr; simpl; rewrite rev_involutive, <- app_assoc.
  reflexivity.
Qed.

Lemma rstrip_last s u c : Py.rstrip s = u ++ [c] -> Py.isspace c = false.
Proof.
  unfold Py.rstrip; intros H.
  apply (f_equal (@rev char)) in H.
  rewrite rev_involutive, rev_app_distr in H; simpl in H.
  now apply lstrip_head in H.
Qed.

Lemma strip_cons_nonspace c r :
  Py.isspace c = false -> Py.strip (c :: r) = c :: Py.rstrip r.
Proof.
  intros Hc; unfold Py.strip; simpl; rewrite Hc.
  exact (rstrip_app_nonspace [] c r Hc).
Qed.

Lemma strip_head s c r : Py.strip s = c :: r -> Py.isspace c = false.
Proof.
  unfold Py.strip; destruct (Py.lstrip s) as [|a l] eqn:E.
  - discriminate.
  - pose proof (lstrip_head _ _ _ E) as Ha.
    pose proof (rstrip_app_nonspace [] a l Ha) as R; simpl in R.
    rewrite R; now intros [= <- _].
Qed.

Lemma strip_stripped s : stripped (Py.strip s).
Proof.
  split.
  - intros c r; apply strip_head.
  - intros u c; unfold Py.strip; apply rstrip_last.
Qed.

Lemma blank_true line : blank line = true <-> Py.strip line = [].
Proof. unfold blank; destruct (Py.strip line); split; congruence. Qed.

Lemma blank_false line :
  blank line = false <->
  exists c r, Py.strip line = c :: r /\ Py.isspace c = false.
Proof.
  unfold blank; destruct (Py.strip line) as [|c r] eqn:E; split;
    try congruence.
  - intros (? & ? & ? & _); discriminate.
  - intros _; exists c, r; split; [reflexivity | now apply (strip_head line c r)].
Qed.

(** ** Searching: [startswith], [find], [in], [split] *)

Lemma startswith_spec sub s :
  Py.startswith sub s = true <-> exists r, s = sub ++ r.
Proof.
  revert s; induction sub as [|a sub IH]; intros s; simpl.
  - split; [intros _; now exists s | reflexivity].
  - destruct s as [|b s].
    + split; [discriminate | intros (r & [=])].
    + rewrite andb_true_iff, N.eqb_eq, IH; split.
      * intros (-> & r & ->); now exists r.
      * intros (r & [= -> ->]); split; [reflexivity | now exists r].
Qed.

Lemma find_Some sub s k :
  Py.find sub s = Some k ->
  first_occurrence sub (firstn k s) (skipn (k + List.length sub) s) s /\
  List.length (firstn k s) = k.
Proof.
  revert k; induction s as [|c s IH]; intros k; simpl.
  - destruct (Py.startswith sub []) eqn:E; [|discriminate].
    intros [= <-].
    apply startswith_spec in E as (r & E).
    symmetry in E; apply app_eq_nil in E as (-> & ->).
    repeat split; simpl; intros; lia.
  - destruct (Py.startswith sub (c :: s)) eqn:E.
    + intros [= <-]; apply startswith_spec in E as (r & E).
      split; [split|reflexivity].
      * simpl firstn; simpl "+"%nat. rewrite E at 1.
        rewrite E, skipn_app, skipn_all, Nat.sub_diag; reflexivity.
      * simpl; intros; lia.
    + destruct (Py.find sub s) as [k'|] eqn:F; [|discriminate].
      intros [= <-].
      destruct (IH k' eq_refl) as ((Hcut & Hmin) & Hlen).
      split; [split|].
      * simpl; f_equal; exact Hcut.
      * intros [|c' a'] b' H.
        -- exfalso. assert (Py.startswith sub (c :: s) = true) as E'
             by (apply startswith_spec; now exists b').
           congruence.
        -- simpl in H; injection H as _ H.
           specialize (Hmin _ _ H); simpl in *; lia.
      * simpl; now rewrite Hlen.
Qed.

Lemma find_None sub s : Py.find sub s = None -> ~ occurs sub s.
Proof.
  induction s as [|c s IH]; simpl.
  - destruct (Py.startswith sub []) eqn:E; [discriminate|].
    intros _ ([|? ?] & b & H); [|discriminate].
    assert (Py.startswith sub [] = true)
      by (apply startswith_spec; now exists b).
    congruence.
  - destruct (Py.startswith sub (c :: s)) eqn:E; [discriminate|].
    destruct (Py.find sub s) eqn:F; [discriminate|].
    intros _ ([|c' a] & b & H).
    + assert (Py.startswith sub (c :: s) = true)
        by (apply startswith_spec; now exists b).
      congruence.
    + simpl in H; injection H as _ H.
      apply IH; [reflexivity | now exists a, b].
Qed.

Lemma contains_occurs sub s : Py.contains sub s = true <-> occurs sub s.
Proof.
  unfold Py.contains; destruct (Py.find sub s) as [k|] eqn:F.
  - split; [intros _ | reflexivity].
    apply find_Some in F as ((H & _) & _).
    now exists (firstn k s), (skipn (k + List.length sub) s).
  - split; [discriminate|].
    intros H; now apply find_None in F.
Qed.

Lemma contains_false sub s : Py.contains sub s = false <-> ~ occurs sub s.
Proof.
  rewrite <- contains_occurs; destruct (Py.contains sub s); split; congruence.
Qed.

Lemma occurs_app sub l s r : occurs sub s -> occurs sub (l ++ s ++ r).
Proof.
  intros (a & b & ->); exists (l ++ a), (b ++ r).
  now rewrite <- !app_assoc.
Qed.

(** ** The loop body is total

    [int()] fails with [ValueError] only, the handler catches it, and the
    unpacking of the split never fails after the [in] test: the body
    appends [record py i line] when there is one and raises nothing. *)

Lemma int_raises py s e : Py.int py s = Raise e -> e = ValueError.
Proof.
  unfold Py.int, Py.PyLong_FromString.
  destruct (Py.strip_sign _) as [sign t].
  destruct (Py.leading_underscore t); [congruence|].
  destruct (Py.scan _ _ _ _) as [[[z n] rest]|]; [|congruence].
  destruct (n =? 0)%N; [congruence|].
  destruct (Py.exceeds_limit py n); [congruence|].
  destruct (Py.skip_space rest); congruence.
Qed.

Lemma try_int py s :
  try_except_ValueError (y <- Py.int py s ;; Ok (Some y)) (Ok None)
  = Ok (year_of (Py.int py s)).
Proof.
  destruct (Py.int py s) as [v|e] eqn:E; simpl; [reflexivity|].
  now rewrite (int_raises _ _ _ E).
Qed.

Lemma split_once sub s :
  Py.split sub 1 s
  = match Py.find sub s with
    | Some k => [firstn k s; skipn (k + List.length sub) s]
    | None => [s]
    end.
Proof. reflexivity. Qed.

Lemma loop_body_record py i line items :
  loop_body py i line items = Ok (items ++ emitted (record py i line)).
Proof.
  unfold loop_body, record.
  destruct (Py.strip line) as [|c l] eqn:E.
  - simpl; now rewrite app_nil_r.
  - unfold Py.contains; rewrite split_once.
    destruct (Py.find sep (c :: l)) as [k|] eqn:F; [|reflexivity].
    rewrite try_int; reflexivity.
Qed.

Lemma for_loop_of_lines py lines : forall i items,
  for_loop py i (of_lines lines) items
  = Ok (items ++ flat_map (fun p => emitted (record py (fst p) (snd p)))
                   (enumerate i lines)).
Proof.
  induction lines as [|line lines IH]; intros i items; simpl.
  - now rewrite app_nil_r.
  - rewrite loop_body_record; simpl.
    now rewrite IH, <- app_assoc.
Qed.

Lemma convert_records py lines :
  convert py lines
  = Ok (flat_map (fun p => emitted (record py (fst p) (snd p)))
          (enumerate 1 lines)).
Proof. unfold convert; now rewrite for_loop_of_lines. Qed.

(** ** [int()] *)

Section IntProofs.

Variable py : interp.

Lemma TODECIMAL_range c d : Py_UNICODE_TODECIMAL py c = Some d -> (d < 10)%N.
Proof.
  unfold Py_UNICODE_TODECIMAL.
  destruct (List.find _ _) as [z|] eqn:F; [|discriminate].
  apply find_some in F as (_ & F).
  apply andb_true_iff in F as (F1 & F2).
  apply N.leb_le in F1; apply N.ltb_lt in F2.
  intros [= <-]; lia.
Qed.

Lemma Transform_cons c r :
  Py.TransformDecimalAndSpaceToASCII py (c :: r)
  = match to_ascii py c with
    | Some c' => c' :: Py.TransformDecimalAndSpaceToASCII py r
    | None => [63%N]
    end.
Proof.
  unfold to_ascii; simpl.
  destruct (c <? 127)%N; [reflexivity|].
  destruct (Py.isspace c); [reflexivity|].
  destruct (Py_UNICODE_TODECIMAL py c); reflexivity.
Qed.

Lemma Py_ISSPACE_isspace c : Py.Py_ISSPACE c = true -> Py.isspace c = true.
Proof. unfold Py.Py_ISSPACE, Py.isspace; nbool; lia. Qed.

Lemma DigitValue_range c d :
  Py.DigitValue c = Some d -> (48 <= c <= 57)%N /\ d = Z.of_N (c - 48).
Proof.
  unfold Py.DigitValue.
  destruct ((48 <=? c) && (c <=? 57))%N eqn:E; [|discriminate].
  intros [= <-]; nbool; lia.
Qed.

Lemma to_ascii_space c c' :
  to_ascii py c = Some c' -> Py.Py_ISSPACE c' = true -> Py.isspace c = true.
Proof.
  unfold to_ascii.
  destruct (c <? 127)%N.
  - intros [= <-]; apply Py_ISSPACE_isspace.
  - destruct (Py.isspace c); [reflexivity|].
    destruct (Py_UNICODE_TODECIMAL py c) as [d|] eqn:D; [|discriminate].
    apply TODECIMAL_range in D.
    cbn [option_map]; intros E; assert (c' = (48 + d)%N) as -> by congruence.
    unfold Py.Py_ISSPACE; intros H; exfalso; nbool; lia.
Qed.

Lemma to_ascii_digit c c' d :
  to_ascii py c = Some c' -> Py.DigitValue c' = Some d ->
  decimal_digit py c = Some d.
Proof.
  unfold to_ascii, decimal_digit.
  destruct (c <? 127)%N.
  - intros [= <-]; exact (fun H => H).
  - destruct (Py.isspace c).
    + intros [= <-]; discriminate.
    + destruct (Py_UNICODE_TODECIMAL py c) as [n|]; [|discriminate].
      cbn [option_map]; intros E H.
      assert (c' = (48 + n)%N) as -> by congruence.
      apply DigitValue_range in H as (_ & ->).
      do 2 f_equal; lia.
Qed.

Lemma digit_to_ascii c d :
  decimal_digit py c = Some d ->
  exists c', to_ascii py c = Some c' /\ Py.DigitValue c' = Some d.
Proof.
  unfold to_ascii, decimal_digit.
  destruct (c <? 127)%N.
  - intros H; exists c; split; [reflexivity | exact H].
  - destruct (Py.isspace c); [discriminate|].
    destruct (Py_UNICODE_TODECIMAL py c) as [n|] eqn:D; [|discriminate].
    apply TODECIMAL_range in D.
    cbn [option_map]; intros [= <-]; exists (48 + n)%N; split; [reflexivity|].
    unfold Py.DigitValue.
    replace ((48 <=? 48 + n) && (48 + n <=? 57))%N with true
      by (symmetry; nbool; lia).
    do 2 f_equal; lia.
Qed.

Lemma to_ascii_same c c' :
  to_ascii py c = Some c' ->
  c' = 43%N \/ c' = 45%N \/ c' = UNDERSCORE -> c = c'.
Proof.
  unfold to_ascii, UNDERSCORE, SPACE.
  destruct (c <? 127)%N; [congruence|].
  destruct (Py.isspace c).
  - intros [= <-]; lia.
  - destruct (Py_UNICODE_TODECIMAL py c) as [n|] eqn:D; [|discriminate].
    apply TODECIMAL_range in D.
    cbn [option_map]; intros E; assert (c' = (48 + n)%N) as -> by congruence.
    lia.
Qed.

Lemma Transform_Forall2 s :
  ~ In 63%N (Py.TransformDecimalAndSpaceToASCII py s) ->
  Forall2 (fun c c' => to_ascii py c = Some c') s
    (Py.TransformDecimalAndSpaceToASCII py s).
Proof.
  induction s as [|c r IH]; [constructor|].
  rewrite Transform_cons.
  destruct (to_ascii py c) as [c'|] eqn:E.
  - intros H; constructor; [exact E|].
    apply IH; intros H'; apply H; now right.
  - intros H; exfalso; apply H; now left.
Qed.

(** The scan against the grammar. *)

Lemma scan_complete b ds :
  numeral_tail Py.DigitValue b ds ->
  forall prev acc n, prev <> UNDERSCORE ->
    Py.scan prev acc n b
    = Some (fold_left (fun a d => 10 * a + d)%Z ds acc,
            (n + N.of_nat (List.length ds))%N, []).
Proof.
  induction 1 as [|c d s ds Hd _ IH|c d s ds Hd _ IH];
    intros prev acc n Hprev.
  - simpl. apply N.eqb_neq in Hprev; rewrite Hprev.
    now rewrite N.add_0_r.
  - simpl; rewrite Hd.
    apply DigitValue_range in Hd as (Hc & _).
    rewrite IH by (unfold UNDERSCORE; lia).
    do 3 f_equal; lia.
  - cbn [Py.scan]. change (Py.DigitValue UNDERSCORE) with (@None Z).
    rewrite N.eqb_refl.
    apply N.eqb_neq in Hprev; rewrite Hprev, Hd.
    apply DigitValue_range in Hd as (Hc & _).
    rewrite IH by (unfold UNDERSCORE; lia).
    do 3 f_equal; simpl List.length; lia.
Qed.

Lemma scan_sound a : forall prev acc n z n' rest,
  Py.scan prev acc n a = Some (z, n', rest) ->
  exists b ds,
    a = b ++ rest /\
    z = fold_left (fun a d => 10 * a + d)%Z ds acc /\
    n' = (n + N.of_nat (List.length ds))%N /\
    if (prev =? UNDERSCORE)%N then numeral Py.DigitValue b ds
    else numeral_tail Py.DigitValue b ds.
Proof.
  induction a as [|c r IH]; intros prev acc n z n' rest; simpl.
  - destruct (prev =? UNDERSCORE)%N; [discriminate|].
    intros [= <- <- <-]; exists [], []; repeat split.
    + now rewrite N.add_0_r.
    + constructor.
  - destruct (Py.DigitValue c) as [d|] eqn:Hd.
    + intros H; apply IH in H as (b & ds & -> & -> & -> & Hb).
      pose proof (DigitValue_range _ _ Hd) as (Hc & _).
      replace (c =? UNDERSCORE)%N with false in Hb
        by (symmetry; unfold UNDERSCORE; nbool; lia).
      exists (c :: b), (d :: ds); repeat split.
      * simpl List.length; lia.
      * destruct (prev =? UNDERSCORE)%N; now constructor.
    + destruct (c =? UNDERSCORE)%N eqn:Hc.
      * destruct (prev =? UNDERSCORE)%N; [discriminate|].
        intros H; apply IH in H as (b & ds & -> & -> & -> & Hb).
        rewrite Hc in Hb.
        apply N.eqb_eq in Hc; subst c.
        destruct Hb as [c d s ds Hd' Hs].
        exists (UNDERSCORE :: c :: s), (d :: ds); repeat split.
        now constructor.
      * destruct (prev =? UNDERSCORE)%N; [discriminate|].
        intros [= <- <- <-]; exists [], []; repeat split.
        -- now rewrite N.add_0_r.
        -- constructor.
Qed.

(** Every literal is read, with its value. *)

Lemma Transform_sign sg sign x :
  sign_prefix sg sign ->
  Py.TransformDecimalAndSpaceToASCII py (sg ++ x)
  = sg ++ Py.TransformDecimalAndSpaceToASCII py x.
Proof. destruct 1; reflexivity. Qed.

Lemma Transform_tail b ds :
  numeral_tail (decimal_digit py) b ds ->
  numeral_tail Py.DigitValue (Py.TransformDecimalAndSpaceToASCII py b) ds.
Proof.
  induction 1 as [|c d s ds Hd _ IH|c d s ds Hd _ IH].
  - constructor.
  - rewrite Transform_cons.
    apply digit_to_ascii in Hd as (c' & -> & Hd); now constructor.
  - rewrite Transform_cons; change (to_ascii py UNDERSCORE) with (Some UNDERSCORE).
    rewrite Transform_cons.
    apply digit_to_ascii in Hd as (c' & -> & Hd); now constructor.
Qed.

Lemma Transform_numeral b ds :
  numeral (decimal_digit py) b ds ->
  numeral Py.DigitValue (Py.TransformDecimalAndSpaceToASCII py b) ds.
Proof.
  intros [c d s ds' Hd Hs]; rewrite Transform_cons.
  apply digit_to_ascii in Hd as (c' & -> & Hd).
  constructor; [exact Hd | now apply Transform_tail].
Qed.

Lemma PyLong_FromString_literal sg sign b ds :
  sign_prefix sg sign -> numeral Py.DigitValue b ds ->
  Py.exceeds_limit py (N.of_nat (List.length ds)) = false ->
  Py.PyLong_FromString py (sg ++ b) = Ok (sign * value ds)%Z.
Proof.
  intros Hsg [c d t ds' Hd Ht] Hlim.
  pose proof (DigitValue_range _ _ Hd) as (Hc & _).
  assert (Py.Py_ISSPACE c = false) as Hsp
    by (unfold Py.Py_ISSPACE; nbool; lia).
  assert ((c =? 43)%N = false /\ (c =? 45)%N = false
          /\ (c =? UNDERSCORE)%N = false)
    as (H43 & H45 & H95) by (unfold UNDERSCORE; nbool; lia).
  assert (Py.scan 0%N 0%Z 0%N (c :: t)
          = Some (value (d :: ds'), N.of_nat (List.length (d :: ds')), []))
    as Hscan.
  { simpl Py.scan; rewrite Hd.
    rewrite (scan_complete _ _ Ht) by (unfold UNDERSCORE; lia).
    unfold value; simpl fold_left; simpl List.length.
    do 3 f_equal; lia. }
  assert (Py.strip_sign (Py.skip_space (sg ++ c :: t)) = (sign, c :: t)) as Hs.
  { destruct Hsg; simpl; rewrite ?Hsp; simpl; rewrite ?H43, ?H45; reflexivity. }
  unfold Py.PyLong_FromString; rewrite Hs.
  simpl Py.leading_underscore; rewrite H95, Hscan, Hlim.
  reflexivity.
Qed.

Lemma int_complete s v : int_literal py s v -> Py.int py s = Ok v.
Proof.
  intros (sg & sign & b & ds & -> & Hsg & Hb & Hlim & ->).
  unfold Py.int; rewrite (Transform_sign sg sign _ Hsg).
  apply PyLong_FromString_literal; auto using Transform_numeral.
Qed.

(** Conversely, what is read from a stripped text is a literal. *)

Lemma skip_space_prefix a :
  exists ws, a = ws ++ Py.skip_space a /\
             Forall (fun c => Py.Py_ISSPACE c = true) ws.
Proof.
  induction a as [|c a (ws & Ha & Hws)]; simpl.
  - exists []; split; [reflexivity | constructor].
  - destruct (Py.Py_ISSPACE c) eqn:E.
    + exists (c :: ws); split; [simpl; congruence | now constructor].
    + exists []; split; [reflexivity | constructor].
Qed.

Lemma skip_space_nil a :
  Py.skip_space a = [] -> Forall (fun c => Py.Py_ISSPACE c = true) a.
Proof.
  intros H; destruct (skip_space_prefix a) as (ws & Ha & Hws).
  rewrite H, app_nil_r in Ha; now subst.
Qed.

Lemma strip_sign_prefix a sign a' :
  Py.strip_sign a = (sign, a') -> exists sg, a = sg ++ a' /\ sign_prefix sg sign.
Proof.
  destruct a as [|c r]; simpl.
  - intros [= <- <-]; exists []; split; [reflexivity | constructor].
  - destruct (c =? 43)%N eqn:E43; [|destruct (c =? 45)%N eqn:E45];
      intros [= <- <-].
    + apply N.eqb_eq in E43 as ->; exists [43%N]; split;
        [reflexivity | constructor].
    + apply N.eqb_eq in E45 as ->; exists [45%N]; split;
        [reflexivity | constructor].
    + exists []; split; [reflexivity | constructor].
Qed.

Lemma numeral_tail_chars b ds :
  numeral_tail Py.DigitValue b ds -> ~ In 63%N b.
Proof.
  induction 1 as [|c d s ds Hd _ IH|c d s ds Hd _ IH]; simpl.
  - tauto.
  - apply DigitValue_range in Hd as (Hc & _); intros [H|H]; [lia | tauto].
  - apply DigitValue_range in Hd as (Hc & _).
    unfold UNDERSCORE; intros [H|[H|H]]; [lia | lia | tauto].
Qed.

Lemma spaces_chars ws :
  Forall (fun c => Py.Py_ISSPACE c = true) ws -> ~ In 63%N ws.
Proof.
  induction 1 as [|c ws Hc _ IH]; simpl; [tauto|].
  intros [->|H]; [vm_compute in Hc; discriminate | tauto].
Qed.

Lemma numeral_tail_back b ds :
  numeral_tail Py.DigitValue b ds ->
  forall s, Forall2 (fun c c' => to_ascii py c = Some c') s b ->
            numeral_tail (decimal_digit py) s ds.
Proof.
  induction 1 as [|c d t ds Hd _ IH|c d t ds Hd _ IH]; intros s Hs.
  - inversion Hs; constructor.
  - inversion Hs as [|c0 ? s0 ? Hc Ht]; subst.
    constructor; [now apply (to_ascii_digit c0 c) | now apply IH].
  - inversion Hs as [|u ? s0 ? Hu Ht]; subst.
    inversion Ht as [|c0 ? s1 ? Hc Ht']; subst.
    apply to_ascii_same in Hu; [subst u | now right; right].
    constructor; [now apply (to_ascii_digit c0 c) | now apply IH].
Qed.

Lemma int_sound s v : stripped s -> Py.int py s = Ok v -> int_literal py s v.
Proof.
  intros (Hhead & Hlast).
  unfold Py.int, Py.PyLong_FromString.
  set (a := Py.TransformDecimalAndSpaceToASCII py s).
  destruct (Py.strip_sign (Py.skip_space a)) as [sign a2] eqn:Hsign.
  destruct (Py.leading_underscore a2) eqn:Hund; [discriminate|].
  destruct (Py.scan 0%N 0%Z 0%N a2) as [[[z n] rest]|] eqn:Hscan;
    [|discriminate].
  destruct (n =? 0)%N eqn:Hn; [discriminate|].
  destruct (Py.exceeds_limit py n) eqn:Hlim; [discriminate|].
  destruct (Py.skip_space rest) eqn:Hrest; [|discriminate].
  intros [= <-].
  destruct (skip_space_prefix a) as (ws & Ha & Hws).
  apply strip_sign_prefix in Hsign as (sg & Ha1 & Hsg).
  apply scan_sound in Hscan as (b & ds & Ha2 & -> & -> & Hb).
  change (0 =? UNDERSCORE)%N with false in Hb.
  apply skip_space_nil in Hrest.
  rewrite Ha1, Ha2 in Ha.
  assert (Forall2 (fun c c' => to_ascii py c = Some c') s a) as HF.
  { apply Transform_Forall2; fold a; rewrite Ha, !in_app_iff.
    pose proof (spaces_chars _ Hws); pose proof (spaces_chars _ Hrest).
    pose proof (numeral_tail_chars _ _ Hb).
    assert (~ In 63%N sg) by (destruct Hsg; simpl; intuition lia).
    tauto. }
  rewrite Ha in HF.
  apply Forall2_app_inv_r in HF as (s0 & s' & H0 & HF & ->).
  apply Forall2_app_inv_r in HF as (s1 & s'' & H1 & HF & ->).
  apply Forall2_app_inv_r in HF as (s2 & s3 & H2 & H3 & ->).
  (* nothing before the sign *)
  assert (s0 = []) as ->.
  { destruct H0 as [|c c' s0 ws' Hc _]; [reflexivity|].
    inversion Hws; subst.
    pose proof (to_ascii_space _ _ Hc ltac:(assumption)) as E.
    rewrite (Hhead c (s0 ++ s1 ++ s2 ++ s3) eq_refl) in E; discriminate. }
  inversion H0; subst ws; clear H0 Hws.
  (* nothing after the digits *)
  assert (s3 = []) as ->.
  { destruct s3 as [|c3 s3]; [reflexivity | exfalso].
    destruct (@exists_last _ (c3 :: s3) ltac:(discriminate)) as (u & c & E).
    rewrite E in *.
    apply Forall2_app_inv_l in H3 as (r1 & r2 & _ & Hr2 & ->).
    inversion Hr2 as [|? c' ? ? Hc Hnil]; subst.
    inversion Hnil; subst.
    apply Forall_app in Hrest as (_ & Hc').
    inversion Hc' as [|? ? Hsp _]; subst.
    pose proof (to_ascii_space _ _ Hc Hsp) as Hsp'.
    rewrite (Hlast (s1 ++ s2 ++ u) c) in Hsp'; [discriminate|].
    now rewrite <- !app_assoc. }
  inversion H3; subst rest; clear H3 Hrest.
  (* the sign is the sign *)
  assert (s1 = sg) as ->.
  { destruct Hsg; inversion H1 as [|c ? ? ? Hc Hnil]; subst;
      try reflexivity; inversion Hnil; subst; f_equal;
      apply (to_ascii_same _ _ Hc); tauto. }
  (* the digits are digits *)
  rewrite N.add_0_l in Hn, Hlim.
  destruct Hb as [|c d t ds Hd Ht|c d t ds Hd Ht].
  - discriminate.
  - inversion H2 as [|c0 ? t0 ? Hc Ht0]; subst.
    exists sg, sign, (c0 :: t0), (d :: ds).
    split; [now rewrite app_nil_r|].
    split; [assumption|].
    split; [|split; [assumption | reflexivity]].
    constructor; [now apply (to_ascii_digit c0 c) |].
    now apply (numeral_tail_back _ _ Ht).
  - rewrite Ha2 in Hund; discriminate.
Qed.

End IntProofs.

(** ** [str()] of an integer is read back *)

Lemma digits_value_digit k acc r :
  (k < 10)%N ->
  digits_value acc ((48 + k)%N :: r) = digits_value (10 * acc + Z.of_N k) r.
Proof.
  intros H; cbn [digits_value].
  replace ((48 <=? 48 + k) && (48 + k <=? 57))%N with true
    by (symmetry; nbool; lia).
  do 2 f_equal; lia.
Qed.

Lemma digits_value_uint d : forall acc,
  digits_value acc (Py.uint_chars d)
  = Some (acc * 10 ^ Z.of_N (DecimalPos.Unsigned.usize d)
          + Z.of_N (DecimalPos.Unsigned.of_lu (Decimal.rev d)))%Z.
Proof.
  assert (forall k acc r, (k < 10)%N ->
            digits_value acc ((48 + k)%N :: r)
            = digits_value (10 * acc + Z.of_N k) r) as step
    by (intros; now apply digits_value_digit).
  induction d; intros acc; cbn [Py.uint_chars];
    [ simpl; f_equal; lia | .. ].
  all: match goal with
       | |- digits_value _ (?c :: _) = _ =>
           let k := eval vm_compute in (c - 48)%N in
           rewrite (step k) by reflexivity
       end.
  all: rewrite IHd; apply f_equal.
  all: unfold Decimal.rev; cbn [Decimal.revapp].
  all: rewrite (DecimalPos.Unsigned.of_lu_revapp d (_ Decimal.Nil)).
  all: cbn [DecimalPos.Unsigned.usize].
  all: rewrite N2Z.inj_add, N2Z.inj_mul, N2Z.inj_pow, N2Z.inj_succ.
  all: rewrite Z.pow_succ_r by apply N2Z.is_nonneg.
  all: fold (Decimal.rev d).
  all: simpl (Z.of_N (DecimalPos.Unsigned.of_lu (_ Decimal.Nil))).
  all: simpl (Z.of_N _); ring.
Qed.

Lemma uint_chars_head d :
  d <> Decimal.Nil ->
  exists c r, Py.uint_chars d = c :: r /\ (48 <= c <= 57)%N.
Proof.
  destruct d; [congruence | ..]; intros _; simpl;
    eexists _, _; (split; [reflexivity | lia]).
Qed.

Lemma unsigned_integer_to_uint p :
  unsigned_integer (Py.uint_chars (Pos.to_uint p)) = Some (Z.pos p).
Proof.
  destruct (uint_chars_head _ (DecimalPos.Unsigned.to_uint_nonnil p))
    as (c & r & E & _).
  unfold unsigned_integer.
  rewrite E, <- E, digits_value_uint.
  rewrite <- DecimalPos.Unsigned.of_uint_alt, DecimalPos.Unsigned.of_to.
  reflexivity.
Qed.

Lemma plain_integer_str z : plain_integer (Py.str z) = Some z.
Proof.
  unfold Py.str; destruct z as [|p|p]; cbn [Z.to_int].
  - reflexivity.
  - destruct (uint_chars_head _ (DecimalPos.Unsigned.to_uint_nonnil p))
      as (c & r & E & Hc).
    unfold plain_integer; rewrite E.
    replace (c =? 43)%N with false by (symmetry; nbool; lia).
    replace (c =? 45)%N with false by (symmetry; nbool; lia).
    rewrite <- E; apply unsigned_integer_to_uint.
  - cbn [plain_integer]; change (45 =? 43)%N with false; cbv iota.
    change (45 =? 45)%N with true; cbv iota.
    now rewrite unsigned_integer_to_uint.
Qed.

Lemma str_inj a b : Py.str a = Py.str b -> a = b.
Proof.
  intros H; apply (f_equal plain_integer) in H.
  rewrite !plain_integer_str in H; congruence.
Qed.

(** ** Records and lines *)

Lemma record_blank py i line : blank line = true -> record py i line = None.
Proof. rewrite blank_true; unfold record; now intros ->. Qed.

Lemma find_sep_nonspace c l k :
  Py.isspace c = false -> Py.find sep (c :: l) = Some k ->
  exists k', k = S k'.
Proof.
  intros Hc; cbn [Py.find].
  replace (Py.startswith sep (c :: l)) with false.
  - destruct (Py.find sep l) as [k'|]; [|discriminate].
    intros [= <-]; now exists k'.
  - symmetry; rewrite sep_eq; cbn [Py.startswith].
    destruct (SPACE =? c)%N eqn:E; [|reflexivity].
    apply N.eqb_eq in E; subst c; discriminate.
Qed.

Lemma record_nonblank py i line :
  blank line = false ->
  exists it, record py i line = Some it /\
             id it = Py.str i /\ rating it = 0%Z /\ title it <> [].
Proof.
  rewrite blank_false; intros (c & l & E & Hc).
  unfold record; rewrite E.
  destruct (Py.find sep (c :: l)) as [k|] eqn:F.
  - eexists; split; [reflexivity|]; cbn [id rating title].
    repeat split.
    destruct (find_sep_nonspace _ _ _ Hc F) as (k' & ->).
    cbn [firstn]; rewrite strip_cons_nonspace by assumption; discriminate.
  - eexists; split; [reflexivity|]; cbn [id rating title].
    repeat split; discriminate.
Qed.

Lemma record_Some_nonblank py i line it :
  record py i line = Some it -> blank line = false.
Proof.
  destruct (blank line) eqn:B; [|reflexivity].
  now rewrite (record_blank py i line B).
Qed.

Lemma records_nonblank py lines : forall start,
  Forall2 (fun it p => record py (fst p) (snd p) = Some it)
    (flat_map (fun p => emitted (record py (fst p) (snd p)))
       (enumerate start lines))
    (filter (fun p => negb (blank (snd p))) (enumerate start lines)).
Proof.
  induction lines as [|line lines IH]; intros start; simpl; [constructor|].
  destruct (blank line) eqn:B; simpl.
  - rewrite (record_blank py start line B); simpl; apply IH.
  - destruct (record_nonblank py start line B) as (it & E & _).
    rewrite E; simpl; constructor; [exact E | apply IH].
Qed.

Lemma convert_nonblank py lines :
  exists items,
    convert py lines = Ok items /\
    Forall2 (fun it p => record py (fst p) (snd p) = Some it)
      items (nonblank_lines lines).
Proof.
  eexists; split; [apply convert_records | apply records_nonblank].
Qed.

Lemma loop_body_single py i line it :
  record py i line = Some it -> loop_body py i line [] = Ok [it].
Proof. intros H; now rewrite loop_body_record, H. Qed.

(** Positions. *)

Lemma enumerate_In lines : forall start k line,
  In (k, line) (enumerate start lines) <->
  (start <= k)%Z /\ nth_error lines (Z.to_nat (k - start)) = Some line.
Proof.
  induction lines as [|l lines IH]; intros start k line; simpl.
  - split; [tauto|]. intros (_ & H). now destruct (Z.to_nat (k - start)).
  - rewrite IH; split.
    + intros [[= <- <-]|(Hk & Hn)].
      * split; [lia|]. now rewrite Z.sub_diag.
      * split; [lia|].
        replace (Z.to_nat (k - start)) with (S (Z.to_nat (k - (start + 1))))
          by lia.
        exact Hn.
    + intros (Hk & Hn).
      destruct (Z.eq_dec k start) as [->|Hne].
      * rewrite Z.sub_diag in Hn; simpl in Hn; left; congruence.
      * right; split; [lia|].
        replace (Z.to_nat (k - start)) with (S (Z.to_nat (k - (start + 1))))
          in Hn by lia.
        exact Hn.
Qed.

Lemma nonblank_lines_In lines k line :
  In (k, line) (nonblank_lines lines) <->
  blank line = false /\ (1 <= k)%Z /\
  nth_error lines (Z.to_nat (k - 1)) = Some line.
Proof.
  unfold nonblank_lines; rewrite filter_In, enumerate_In; simpl.
  rewrite negb_true_iff; tauto.
Qed.

Lemma enumerate_sorted lines : forall start,
  StronglySorted Z.lt (map fst (enumerate start lines)).
Proof.
  induction lines as [|l lines IH]; intros start; simpl; constructor.
  - apply IH.
  - apply Forall_forall; intros k Hk.
    apply in_map_iff in Hk as ([k' line] & <- & Hk).
    apply enumerate_In in Hk; simpl; lia.
Qed.

Lemma filter_sorted (f : Z * unicode -> bool) l :
  StronglySorted Z.lt (map fst l) ->
  StronglySorted Z.lt (map fst (filter f l)).
Proof.
  induction l as [|p l IH]; simpl; [constructor|].
  intros H; inversion H as [|? ? Hs Hall]; subst.
  destruct (f p); simpl; [|now apply IH].
  constructor; [now apply IH|].
  rewrite Forall_forall in *; intros k Hk; apply Hall.
  apply in_map_iff in Hk as (q & <- & Hq).
  apply in_map, (proj1 (filter_In _ _ _) Hq).
Qed.

Lemma sorted_NoDup (l : list Z) : StronglySorted Z.lt l -> NoDup l.
Proof.
  induction 1 as [|k l _ IH Hall]; constructor; [|exact IH].
  intros Hin; rewrite Forall_forall in Hall.
  specialize (Hall k Hin); lia.
Qed.

Lemma length_nonblank_lines lines : forall start,
  List.length (filter (fun p => negb (blank (snd p))) (enumerate start lines))
  = List.length (filter (fun line => negb (blank line)) lines).
Proof.
  induction lines as [|l lines IH]; intros start; simpl; [reflexivity|].
  destruct (blank l); simpl; now rewrite IH.
Qed.

(** Reading a stream and looping over it. *)

Lemma for_loop_lines_of py f : forall i items,
  for_loop py i f items
  = (lines <- lines_of f ;; for_loop py i (of_lines lines) items).
Proof.
  induction f as [|e|line rest IH]; intros i items; simpl; try reflexivity.
  rewrite loop_body_record; simpl; rewrite IH.
  destruct (lines_of rest); simpl; [|reflexivity].
  now rewrite loop_body_record.
Qed.

Lemma records_ids py items ps :
  Forall2 (fun it p => record py (fst p) (snd p) = Some it) items ps ->
  Forall2 (fun it p => loop_body py (fst p) (snd p) [] = Ok [it] /\
                       id it = Py.str (fst p)) items ps.
Proof.
  induction 1 as [|it p items ps Hit _ IH]; constructor; [|exact IH].
  split; [now apply loop_body_single|].
  pose proof (record_Some_nonblank _ _ _ _ Hit) as Hnb.
  destruct (record_nonblank py (fst p) (snd p) Hnb) as (it' & E & Hid & _).
  congruence.
Qed.

Lemma records_read_back py items ps :
  Forall2 (fun it p => record py (fst p) (snd p) = Some it) items ps ->
  map (fun it => plain_integer (id it)) items = map Some (map fst ps).
Proof.
  intros H; apply records_ids in H.
  induction H as [|it p items ps (_ & Hid) _ IH]; simpl; [reflexivity|].
  now rewrite Hid, plain_integer_str, IH.
Qed.

Lemma Forall2_with_right {A B} (R : A -> B -> Prop) (Q : B -> Prop) l l' :
  Forall2 R l l' -> Forall Q l' ->
  Forall2 (fun a b => R a b /\ Q b) l l'.
Proof.
  induction 1 as [|a b l l' Hab _ IH]; intros HQ; constructor;
    inversion HQ; subst; auto.
Qed.

Lemma records_Forall py (Q : item -> Prop) items ps :
  (forall i line it, record py i line = Some it -> Q it) ->
  Forall2 (fun it p => record py (fst p) (snd p) = Some it) items ps ->
  Forall Q items.
Proof.
  intros HQ; induction 1 as [|it p items ps Hit _ IH]; constructor; eauto.
Qed.

Lemma record_title_stripped py i line it :
  record py i line = Some it -> stripped (title it).
Proof.
  unfold record; destruct (Py.strip line) as [|c l] eqn:E; [discriminate|].
  destruct (Py.find sep (c :: l)); intros [= <-]; cbn [title].
  - apply strip_stripped.
  - rewrite <- E; apply strip_stripped.
Qed.

(** ** Writing the chunks *)

Lemma concat_item_chunks it : List.concat (Json.item_chunks it) = Json.encode_item it.
Proof.
  unfold Json.item_chunks, Json.encode_item, Json.member.
  cbn [List.concat Json.join]; rewrite <- !app_assoc, app_nil_r.
  reflexivity.
Qed.

Lemma concat_items_chunks items : forall buf,
  items <> [] ->
  List.concat (Json.items_chunks buf items)
  = buf ++ Json.join (lit "," ++ Json.newline_indent 1)
             (map Json.encode_item items).
Proof.
  induction items as [|it items IH]; intros buf Hne; [congruence|].
  cbn [Json.items_chunks List.concat map]; rewrite concat_app, concat_item_chunks.
  destruct items as [|it2 items].
  - cbn [Json.items_chunks List.concat Json.join map]; now rewrite app_nil_r.
  - rewrite IH by discriminate; reflexivity.
Qed.

Lemma concat_iterencode items :
  List.concat (Json.iterencode items) = Json.dumps items.
Proof.
  destruct items as [|it items]; [reflexivity|].
  unfold Json.iterencode, Json.dumps.
  rewrite concat_app, concat_items_chunks by discriminate.
  cbn [List.concat]; rewrite app_nil_r, <- !app_assoc; reflexivity.
Qed.

Lemma write_chunks_outcome stdout chunks : forall out,
  (accepted stdout out chunks /\
   write_chunks stdout chunks out = (Ok tt, out ++ List.concat chunks)) \/
  (exists done chunk rest e,
      chunks = done ++ chunk :: rest /\
      accepted stdout out done /\
      stdout (out ++ List.concat done) chunk = Some e /\
      write_chunks stdout chunks out = (Raise e, out ++ List.concat done)).
Proof.
  induction chunks as [|c chunks IH]; intros out.
  - left; split; [exact I|]; simpl; unfold pure; now rewrite app_nil_r.
  - cbn [write_chunks]; unfold and_then, write.
    destruct (stdout out c) as [e|] eqn:E.
    + right; exists [], c, chunks, e; simpl; rewrite app_nil_r.
      now repeat split.
    + destruct (IH (out ++ c)) as [(Hacc & Hw)|(d & k & r & e & -> & Hacc & He & Hw)].
      * left; split; [now split|].
        rewrite Hw; cbn [List.concat]; now rewrite app_assoc.
      * right; exists (c :: d), k, r, e; cbn [List.concat accepted].
        rewrite app_assoc; repeat split; assumption.
Qed.

Lemma run_unfold py stdout argv open :
  run py stdout argv open
  = match f <- open (path argv) ;; for_loop py 1 f [] with
    | Ok items =>
        match write_chunks stdout (Json.iterencode items) [] with
        | (Ok _, out) => (0%Z, out)
        | (Raise _, out) => (1%Z, out)
        end
    | Raise _ => (1%Z, [])
    end.
Proof.
  unfold run, script, and_then, pure, json_dump.
  now destruct (f <- open (path argv) ;; for_loop py 1 f []).
Qed.

(** * The claims of the specification *)

(** ** C1: the year of a line with a separator *)

(** C1, as stated, does not hold: it says that the year is an integer
    exactly when the stripped text after the first separator is an
    optional sign followed by decimal digits and nothing else.  [int()]
    also takes single underscores between digits and the decimal digits
    of other scripts, and by default refuses more than 4300 digits.  The
    line ["Foo — 1_000"] gets the year 1000, the line ["Foo — ２００８"]
    the year 2008, and a year text of 4301 digits is read as null. *)
Lemma C1_counterexample :
  first_occurrence sep (lit "Foo") (lit "1_000") (Py.strip (lit "Foo — 1_000"))
  /\ loop_body cpython 1 (lit "Foo — 1_000") []
     = Ok [ {| id := lit "1"; title := lit "Foo";
               year := Some 1000%Z; rating := 0 |} ]
  /\ plain_integer (Py.strip (lit "1_000")) = None
  /\ loop_body cpython 1 (lit "Foo — ２００８") []
     = Ok [ {| id := lit "1"; title := lit "Foo";
               year := Some 2008%Z; rating := 0 |} ]
  /\ plain_integer (Py.strip (lit "２００８")) = None
  /\ loop_body cpython 1 (lit "Foo — " ++ repeat 49%N 4301) []
     = Ok [ {| id := lit "1"; title := lit "Foo";
               year := None; rating := 0 |} ]
  /\ plain_integer (Py.strip (repeat 49%N 4301)) <> None.
Proof.
  split.
  { split; [reflexivity|].
    intros a' b' H; vm_compute in H.
    destruct a' as [|x0 [|x1 [|x2 a']]]; simpl; try lia;
      vm_compute in H; discriminate. }
  split; [vm_compute; reflexivity|].
  split; [vm_compute; reflexivity|].
  split; [vm_compute; reflexivity|].
  split; [vm_compute; reflexivity|].
  split; [vm_compute; reflexivity|].
  vm_compute; discriminate.
Qed.

(** C1, amended: for every line whose stripped text contains the
    separator, the body splits at the first occurrence only, strips both
    parts, raises nothing, and sets the year to [v] exactly when the
    stripped trailing part is a literal of [int()] with value [v]: an
    optional sign, then decimal digits (ASCII or of any other script),
    with single underscores allowed between digits, and within the digit
    limit of the interpreter; otherwise the year is null. *)
Theorem C1_year_is_int_literal py i line items :
  occurs sep (Py.strip line) ->
  exists pre post y,
    first_occurrence sep pre post (Py.strip line) /\
    loop_body py i line items
    = Ok (items ++ [ {| id := Py.str i; title := Py.strip pre;
                        year := y; rating := 0 |} ]) /\
    (forall v, y = Some v <-> int_literal py (Py.strip post) v).
Proof.
  intros H; apply contains_occurs in H; unfold Py.contains in H.
  destruct (Py.find sep (Py.strip line)) as [k|] eqn:F; [clear H|discriminate].
  pose proof (find_Some _ _ _ F) as (Hfirst & _).
  exists (firstn k (Py.strip line)), (skipn (k + 3) (Py.strip line)),
    (year_of (Py.int py (Py.strip (skipn (k + 3) (Py.strip line))))).
  split; [exact Hfirst|split].
  - rewrite loop_body_record; unfold record.
    destruct (Py.strip line) as [|c l] eqn:E; [discriminate|].
    now rewrite F.
  - intros v; split.
    + destruct (Py.int py _) as [v'|e] eqn:E; [|discriminate].
      intros [= <-]; apply int_sound; [apply strip_stripped | exact E].
    + intros Hl; now rewrite (int_complete _ _ _ Hl).
Qed.

Lemma C1_witness :
  occurs sep (Py.strip (lit "Foo — 1999")) /\
  exists pre post y,
    first_occurrence sep pre post (Py.strip (lit "Foo — 1999")) /\
    loop_body cpython 7 (lit "Foo — 1999") []
    = Ok ([] ++ [ {| id := Py.str 7; title := Py.strip pre;
                     year := y; rating := 0 |} ]) /\
    (forall v, y = Some v <-> int_literal cpython (Py.strip post) v).
Proof.
  assert (occurs sep (Py.strip (lit "Foo — 1999"))) as H
    by (exists (lit "Foo"), (lit "1999"); reflexivity).
  split; [exact H | exact (C1_year_is_int_literal cpython 7 _ [] H)].
Defined.

(** ** C2: the ids are the line numbers *)

(** C2: the records pair up, in order, with the non-blank lines, and each
    record's [id] is [str] of the 1-based position of its line in the
    whole input, blank lines counted; read back as integers, the ids of
    the output are positive and strictly increasing, and no two records
    have the same id. *)
Theorem C2_ids_are_line_numbers py lines :
  exists items,
    convert py lines = Ok items /\
    Forall2 (fun it p =>
               (loop_body py (fst p) (snd p) [] = Ok [it] /\
                id it = Py.str (fst p)) /\
               (1 <= fst p)%Z /\
               nth_error lines (Z.to_nat (fst p - 1)) = Some (snd p))
      items (nonblank_lines lines) /\
    (exists ks,
        map (fun it => plain_integer (id it)) items = map Some ks /\
        StronglySorted Z.lt ks /\
        Forall (fun k => 0 < k)%Z ks) /\
    NoDup (map id items).
Proof.
  destruct (convert_nonblank py lines) as (items & Hc & HF).
  exists items; split; [exact Hc|].
  assert (Forall (fun p => (1 <= fst p)%Z /\
                    nth_error lines (Z.to_nat (fst p - 1)) = Some (snd p))
            (nonblank_lines lines)) as Hpos.
  { apply Forall_forall; intros [k line] Hp.
    apply nonblank_lines_In in Hp; simpl; tauto. }
  assert (StronglySorted Z.lt (map fst (nonblank_lines lines))) as Hsorted
    by apply filter_sorted, enumerate_sorted.
  split; [|split].
  - apply (Forall2_with_right _ _ _ _ (records_ids py _ _ HF) Hpos).
  - exists (map fst (nonblank_lines lines)); split; [|split].
    + apply (records_read_back py _ _ HF).
    + exact Hsorted.
    + apply Forall_map; eapply Forall_impl; [|exact Hpos].
      simpl; intros p (H1 & _); lia.
  - apply (NoDup_map_inv plain_integer); rewrite map_map.
    rewrite (records_read_back py _ _ HF).
    apply Injective_map_NoDup; [intros a b; congruence|].
    now apply sorted_NoDup.
Qed.

(** ** C3: one record per non-blank line *)

(** C3: the output has exactly one record per non-blank line, in the
    order of the input: the records pair up with the non-blank lines, each
    being what the body makes of its line at its position in the whole
    input; a blank line adds nothing to [items], whatever its number, and
    the positions are those of the input with the blank lines counted. *)
Theorem C3_one_record_per_nonblank_line py lines :
  exists items,
    convert py lines = Ok items /\
    List.length items
    = List.length (filter (fun line => negb (blank line)) lines) /\
    Forall2 (fun it p => loop_body py (fst p) (snd p) [] = Ok [it])
      items (nonblank_lines lines) /\
    (forall k line,
        In (k, line) (nonblank_lines lines) <->
        blank line = false /\ (1 <= k)%Z /\
        nth_error lines (Z.to_nat (k - 1)) = Some line) /\
    (forall i line items0,
        (blank line = true -> loop_body py i line items0 = Ok items0) /\
        (blank line = false ->
         exists it, loop_body py i line items0 = Ok (items0 ++ [it]))).
Proof.
  destruct (convert_nonblank py lines) as (items & Hc & HF).
  exists items; split; [exact Hc|].
  split; [|split; [|split]].
  - rewrite (Forall2_length HF); apply length_nonblank_lines.
  - eapply Forall2_impl; [|exact HF].
    intros it p; apply loop_body_single.
  - apply nonblank_lines_In.
  - intros i line items0; rewrite loop_body_record; split; intros B.
    + rewrite (record_blank py i line B); simpl; now rewrite app_nil_r.
    + destruct (record_nonblank py i line B) as (it & E & _).
      exists it; now rewrite E.
Qed.

(** ** C4: a line without separator *)

(** C4: a line whose stripped text is not empty and does not contain the
    separator gets a record with the whole stripped line as title and a
    null year. *)
Theorem C4_no_separator py i line items :
  Py.strip line <> [] -> ~ occurs sep (Py.strip line) ->
  loop_body py i line items
  = Ok (items ++ [ {| id := Py.str i; title := Py.strip line;
                      year := None; rating := 0 |} ]).
Proof.
  intros Hne Hno; rewrite loop_body_record; unfold record.
  apply contains_false in Hno; unfold Py.contains in Hno.
  destruct (Py.strip line) as [|c l]; [congruence|].
  destruct (Py.find sep (c :: l)); [discriminate | reflexivity].
Qed.

Lemma C4_witness :
  loop_body cpython 1 (lit "Just A Title") []
  = Ok ([] ++ [ {| id := Py.str 1; title := Py.strip (lit "Just A Title");
                   year := None; rating := 0 |} ]).
Proof.
  apply (C4_no_separator cpython 1 (lit "Just A Title") []).
  - vm_compute; discriminate.
  - apply contains_false; vm_compute; reflexivity.
Defined.

(** ** C5: the example of the specification *)

(** C5: the four lines ["Breaking Bad — 2008"], ["The Wire"], a blank
    line and ["Chernobyl — miniseries"] give the three records with ids 1,
    2 and 4, whether the lines carry their newline, as read from a file,
    or not. *)
Theorem C5_example py :
  convert py [ lit "Breaking Bad — 2008" ++ [NEWLINE];
               lit "The Wire" ++ [NEWLINE];
               [NEWLINE];
               lit "Chernobyl — miniseries" ++ [NEWLINE] ]
  = Ok [ {| id := lit "1"; title := lit "Breaking Bad";
            year := Some 2008%Z; rating := 0 |};
         {| id := lit "2"; title := lit "The Wire";
            year := None; rating := 0 |};
         {| id := lit "4"; title := lit "Chernobyl";
            year := None; rating := 0 |} ]
  /\
  convert py [ lit "Breaking Bad — 2008"; lit "The Wire"; lit "";
               lit "Chernobyl — miniseries" ]
  = Ok [ {| id := lit "1"; title := lit "Breaking Bad";
            year := Some 2008%Z; rating := 0 |};
         {| id := lit "2"; title := lit "The Wire";
            year := None; rating := 0 |};
         {| id := lit "4"; title := lit "Chernobyl";
            year := None; rating := 0 |} ].
Proof. split; vm_compute; reflexivity. Qed.

(** ** C6: the rating *)

(** C6: every record of the output has rating 0, for every input. *)
Theorem C6_rating_is_zero py lines :
  exists items,
    convert py lines = Ok items /\ Forall (fun it => rating it = 0%Z) items.
Proof.
  destruct (convert_nonblank py lines) as (items & Hc & HF).
  exists items; split; [exact Hc|].
  eapply records_Forall; [|exact HF].
  intros i line it H.
  pose proof (record_Some_nonblank _ _ _ _ H) as Hnb.
  destruct (record_nonblank py i line Hnb) as (it' & E & _ & Hr & _).
  congruence.
Qed.

(** ** C7: the outcome of a run *)



(** ** C8: the records depend on the lines only *)

(** C8, as stated, does not hold: it says that the records depend on
    nothing but the sequence of lines.  They also depend on the settings
    of the interpreter that [int()] consults: the line ["Foo — "]
    followed by 4301 digits has a null year under the default digit limit
    and an integer year when the limit is switched off. *)
Lemma C8_counterexample :
  convert cpython [lit "Foo — " ++ repeat 49%N 4301]
  = Ok [ {| id := lit "1"; title := lit "Foo";
            year := None; rating := 0 |} ] /\
  exists v,
    convert cpython_unlimited [lit "Foo — " ++ repeat 49%N 4301]
    = Ok [ {| id := lit "1"; title := lit "Foo";
              year := Some v; rating := 0 |} ].
Proof.
  split; [vm_compute; reflexivity|].
  eexists; vm_compute; reflexivity.
Qed.

(** C8, amended: under the same settings of the interpreter, what a line
    adds to [items] is a function of its number and its text and of
    nothing that came before; hence two runs of the script under the
    same settings, whatever their arguments and file systems, that read
    the same sequence of lines build the same records, and on the same
    standard output they end in the same way. *)
Theorem C8_records_depend_on_lines_and_settings
  py stdout argv1 open1 argv2 open2 lines :
  (f <- open1 (path argv1) ;; lines_of f) = Ok lines ->
  (f <- open2 (path argv2) ;; lines_of f) = Ok lines ->
  (f <- open1 (path argv1) ;; for_loop py 1 f []) = convert py lines /\
  (f <- open2 (path argv2) ;; for_loop py 1 f []) = convert py lines /\
  run py stdout argv1 open1 = run py stdout argv2 open2 /\
  convert py lines
  = Ok (flat_map (fun p => emitted (record py (fst p) (snd p)))
          (enumerate 1 lines)) /\
  (forall i line items,
      loop_body py i line items = Ok (items ++ emitted (record py i line))).
Proof.
  intros H1 H2.
  assert (forall argv open,
             (f <- open (path argv) ;; lines_of f) = Ok lines ->
             (f <- open (path argv) ;; for_loop py 1 f []) = convert py lines)
    as Hloop.
  { intros argv open H; destruct (open (path argv)) as [f|e]; simpl in *;
      [|discriminate].
    rewrite for_loop_lines_of, H; reflexivity. }
  split; [now apply Hloop|]. split; [now apply Hloop|].
  split; [|split; [apply convert_records | apply loop_body_record]].
  now rewrite !run_unfold, (Hloop _ _ H1), (Hloop _ _ H2).
Qed.

Lemma C8_witness :
  let open1 := fun _ : unicode => Ok (of_lines [lit "Foo — 1999"; lit "Bar"]) in
  let open2 := fun p : unicode =>
    if Py.startswith (lit "b") p
    then Ok (Line (lit "Foo — 1999") (Line (lit "Bar") Eof))
    else Raise OSError in
  run cpython ascii_only [lit "convert_series.py"] open1
  = run cpython ascii_only [lit "convert_series.py"; lit "b.txt"] open2.
Proof.
  intros open1 open2.
  apply (C8_records_depend_on_lines_and_settings cpython ascii_only
           [lit "convert_series.py"] open1
           [lit "convert_series.py"; lit "b.txt"] open2
           [lit "Foo — 1999"; lit "Bar"]); reflexivity.
Defined.

(** ** C9: a separator at the end of the line *)



(** ** C10: titles are not empty *)

(** C10: every record of the output has a non-empty title: a non-blank
    line strips to a text that starts with a character that is not white
    space; without a separator that text is the title, and with one the
    part before the separator starts with that same character, so it is
    not empty and does not strip to the empty text. *)
Theorem C10_title_not_empty py lines :
  exists items,
    convert py lines = Ok items /\
    Forall (fun it => title it <> []) items /\
    (forall line, blank line = false ->
       exists c r, Py.strip line = c :: r /\ Py.isspace c = false) /\
    (forall line pre post, Py.strip line = pre ++ sep ++ post ->
       Py.strip pre <> [] /\
       exists c r, pre = c :: r /\ Py.isspace c = false).
Proof.
  destruct (convert_nonblank py lines) as (items & Hc & HF).
  exists items; split; [exact Hc|]; split; [|split].
  - eapply records_Forall; [|exact HF].
    intros i line it H.
    pose proof (record_Some_nonblank _ _ _ _ H) as Hnb.
    destruct (record_nonblank py i line Hnb) as (it' & E & _ & _ & Ht).
    congruence.
  - intros line; apply blank_false.
  - intros line [|c r] post H.
    + rewrite sep_eq in H; simpl in H.
      apply strip_head in H; discriminate.
    + simpl in H; apply strip_head in H.
      rewrite strip_cons_nonspace by assumption.
      split; [discriminate | now exists c, r].
Qed.

(** * Further properties of the specification *)

(** X1: records are created once and never changed afterwards: the loop
    only appends to [items], and it ends without a result only when
    reading the file fails. *)
Theorem X1_loop_only_appends py f i items :
  match for_loop py i f items with
  | Ok items' => exists out, items' = items ++ out
  | Raise e => lines_of f = Raise e
  end.
Proof.
  rewrite for_loop_lines_of.
  destruct (lines_of f) as [lines|e]; simpl; [|reflexivity].
  rewrite for_loop_of_lines; eexists; reflexivity.
Qed.

(** X2: the title of every record is trimmed: it neither starts nor ends
    with white space. *)
Theorem X2_titles_are_trimmed py lines :
  exists items,
    convert py lines = Ok items /\ Forall (fun it => stripped (title it)) items.
Proof.
  destruct (convert_nonblank py lines) as (items & Hc & HF).
  exists items; split; [exact Hc|].
  eapply records_Forall; [|exact HF].
  intros i line it; apply record_title_stripped.
Qed.

(** The one-line examples of the specification: ["Foo — 1999"] has the
    title ["Foo"] and the year 1999, ["Foo — bar"] the title ["Foo"] and
    no year, ["Just A Title"] itself as title and no year. *)
Example one_line_examples py :
  convert py [lit "Foo — 1999"]
  = Ok [ {| id := lit "1"; title := lit "Foo";
            year := Some 1999%Z; rating := 0 |} ] /\
  convert py [lit "Foo — bar"]
  = Ok [ {| id := lit "1"; title := lit "Foo";
            year := None; rating := 0 |} ] /\
  convert py [lit "Just A Title"]
  = Ok [ {| id := lit "1"; title := lit "Just A Title";
            year := None; rating := 0 |} ].
Proof. repeat split; vm_compute; reflexivity. Qed.

(** ** More on white space *)

Lemma lstrip_nil s : Py.lstrip s = [] <-> whitespace s.
Proof.
  induction s as [|c s IH]; simpl.
  - split; [constructor | reflexivity].
  - destruct (Py.isspace c) eqn:E.
    + rewrite IH; split; [now constructor | now inversion 1].
    + split; [discriminate | inversion 1; congruence].
Qed.

Lemma whitespace_app a b : whitespace a -> whitespace b -> whitespace (a ++ b).
Proof. unfold whitespace; intros; now apply Forall_app. Qed.

Lemma rstrip_suffix s : exists ws, s = Py.rstrip s ++ ws /\ whitespace ws.
Proof.
  destruct (lstrip_suffix (rev s)) as (ws & H & Hws).
  exists (rev ws); split; [|now apply whitespace_rev].
  unfold Py.rstrip; rewrite <- rev_app_distr, <- H.
  now rewrite rev_involutive.
Qed.

Lemma strip_substring s :
  exists ws1 ws2,
    s = ws1 ++ Py.strip s ++ ws2 /\ whitespace ws1 /\ whitespace ws2.
Proof.
  destruct (lstrip_suffix s) as (ws1 & H1 & Hws1).
  destruct (rstrip_suffix (Py.lstrip s)) as (ws2 & H2 & Hws2).
  exists ws1, ws2; repeat split; try assumption.
  unfold Py.strip; now rewrite <- H2.
Qed.

Lemma strip_around ws1 s ws2 :
  whitespace ws1 -> whitespace ws2 ->
  Py.strip (ws1 ++ s ++ ws2) = Py.strip s.
Proof.
  intros H1 H2; unfold Py.strip; rewrite lstrip_whitespace by assumption.
  destruct (Py.lstrip s) as [|c r] eqn:E.
  - apply lstrip_nil in E.
    assert (Py.lstrip (s ++ ws2) = []) as ->
      by now apply lstrip_nil, whitespace_app.
    reflexivity.
  - rewrite lstrip_app by congruence.
    rewrite E; now apply rstrip_whitespace.
Qed.

Lemma strip_fixed s : stripped s -> Py.strip s = s.
Proof.
  intros (Hhead & Hlast); unfold Py.strip.
  assert (Py.lstrip s = s) as ->.
  { destruct s as [|c r]; [reflexivity|].
    simpl; now rewrite (Hhead c r eq_refl). }
  unfold Py.rstrip.
  destruct (rev s) as [|c u] eqn:E.
  - apply (f_equal (@rev char)) in E; now rewrite rev_involutive in E.
  - simpl; rewrite (Hlast (rev u) c).
    + rewrite <- E; apply rev_involutive.
    + apply (f_equal (@rev char)) in E; now rewrite rev_involutive in E.
Qed.

(** ** More on the first occurrence *)

Lemma app_eq_length (a a' x y : unicode) :
  a ++ x = a' ++ y -> List.length a = List.length a' -> a = a' /\ x = y.
Proof.
  revert a'; induction a as [|c a IH]; intros [|c' a'] H L;
    try discriminate; simpl in *.
  - now split.
  - injection H as -> H; injection L as L.
    destruct (IH _ H L) as (-> & ->); now split.
Qed.

Lemma first_occurrence_unique sub a b a' b' s :
  first_occurrence sub a b s -> first_occurrence sub a' b' s ->
  a = a' /\ b = b'.
Proof.
  intros (E & Hmin) (E' & Hmin').
  pose proof (Hmin _ _ E') as H1; pose proof (Hmin' _ _ E) as H2.
  rewrite E' in E; symmetry in E.
  apply app_eq_length in E as (-> & E); [|lia].
  split; [reflexivity | now apply app_inv_head in E].
Qed.

Lemma first_occurrence_before a b s :
  first_occurrence sep a b s -> ~ occurs sep (a ++ [SPACE; EM_DASH]).
Proof.
  intros (E & Hmin) (x & y & H).
  assert (s = x ++ sep ++ (y ++ SPACE :: b)) as E'.
  { rewrite E, sep_eq at 1.
    change (a ++ [SPACE; EM_DASH; SPACE] ++ b)
      with (a ++ [SPACE; EM_DASH] ++ SPACE :: b).
    now rewrite app_assoc, H, <- !app_assoc. }
  specialize (Hmin _ _ E').
  apply (f_equal (@List.length char)) in H.
  rewrite sep_eq, !length_app in H; simpl in H; lia.
Qed.

Lemma first_occurrence_intro a b :
  ~ occurs sep (a ++ [SPACE; EM_DASH]) ->
  first_occurrence sep a b (a ++ sep ++ b).
Proof.
  intros Hno; split; [reflexivity|].
  intros a' b' E.
  destruct (Nat.le_gt_cases (List.length a) (List.length a')) as [|Hlt];
    [assumption | exfalso; apply Hno].
  apply (f_equal (firstn (List.length (a ++ [SPACE; EM_DASH])))) in E.
  rewrite sep_eq in E at 1.
  change (a ++ [SPACE; EM_DASH; SPACE] ++ b)
    with (a ++ [SPACE; EM_DASH] ++ SPACE :: b) in E.
  rewrite (app_assoc a), firstn_app, firstn_all, Nat.sub_diag in E.
  simpl firstn in E at 1; rewrite app_nil_r in E.
  rewrite (app_assoc a'), firstn_app in E.
  rewrite firstn_all2 in E
    by (rewrite sep_eq, !length_app; simpl; lia).
  rewrite <- app_assoc in E.
  now exists a', (firstn (List.length (a ++ [SPACE; EM_DASH])
                        - List.length (a' ++ sep)) b').
Qed.

Lemma first_occurrence_find a b s :
  first_occurrence sep a b s ->
  exists k, Py.find sep s = Some k /\ firstn k s = a /\ skipn (k + 3) s = b.
Proof.
  intros H.
  assert (occurs sep s) as Ho by (destruct H as (-> & _); now exists a, b).
  apply contains_occurs in Ho; unfold Py.contains in Ho.
  destruct (Py.find sep s) as [k|] eqn:F; [|discriminate].
  exists k; split; [reflexivity|].
  apply find_Some in F as (F & _).
  destruct (first_occurrence_unique _ _ _ _ _ _ F H) as (<- & <-).
  now split.
Qed.

(** ** Plain integers are literals of [int()] *)

Lemma exceeds_limit_mono py m n :
  (m <= n)%N -> Py.exceeds_limit py n = false -> Py.exceeds_limit py m = false.
Proof.
  unfold Py.exceeds_limit, Py.MAX_STR_DIGITS_THRESHOLD; intros Hmn.
  destruct (640 <? n)%N eqn:E1, (0 <? max_str_digits py)%N eqn:E2,
    (max_str_digits py <? n)%N eqn:E3; simpl; try discriminate; intros _;
    destruct (640 <? m)%N eqn:F1, (max_str_digits py <? m)%N eqn:F3;
    simpl; try reflexivity; nbool; lia.
Qed.

Lemma digits_numeral py body : forall acc v,
  digits_value acc body = Some v ->
  exists ds,
    numeral_tail (decimal_digit py) body ds /\
    fold_left (fun a d => 10 * a + d)%Z ds acc = v /\
    List.length ds = List.length body.
Proof.
  induction body as [|c r IH]; intros acc v; simpl.
  - intros [= <-]; exists []; repeat split; constructor.
  - destruct ((48 <=? c) && (c <=? 57))%N eqn:E; [|discriminate].
    intros H; apply IH in H as (ds & Hds & Hv & Hlen).
    exists (Z.of_N (c - 48) :: ds); repeat split.
    + constructor; [|exact Hds].
      unfold decimal_digit; rewrite E.
      replace (c <? 127)%N with true by (symmetry; nbool; lia).
      reflexivity.
    + exact Hv.
    + simpl; now rewrite Hlen.
Qed.

Lemma unsigned_numeral py s v :
  unsigned_integer s = Some v ->
  exists ds,
    numeral (decimal_digit py) s ds /\ value ds = v /\
    List.length ds = List.length s.
Proof.
  destruct s as [|c r]; [discriminate|].
  unfold unsigned_integer; intros H.
  destruct (digits_numeral py _ _ _ H) as (ds & Hds & Hv & Hlen).
  inversion Hds as [|c' d r' ds' Hd Hr|]; subst.
  - exists (d :: ds'); split; [now constructor|].
    split; [reflexivity | exact Hlen].
  - discriminate H.
Qed.

Lemma plain_integer_literal py s v :
  plain_integer s = Some v ->
  Py.exceeds_limit py (N.of_nat (List.length s)) = false ->
  int_literal py s v.
Proof.
  destruct s as [|c r]; [discriminate|]; unfold plain_integer.
  destruct (c =? 43)%N eqn:E43; [|destruct (c =? 45)%N eqn:E45].
  - apply N.eqb_eq in E43 as ->; intros H Hlim.
    destruct (unsigned_numeral py _ _ H) as (ds & Hds & <- & Hlen).
    exists [43%N], 1%Z, r, ds.
    split; [reflexivity|]; split; [constructor|]; split; [assumption|].
    split; [|now rewrite Z.mul_1_l].
    eapply exceeds_limit_mono; [|exact Hlim].
    rewrite Hlen; simpl List.length; lia.
  - apply N.eqb_eq in E45 as ->; intros H Hlim.
    destruct (unsigned_integer r) as [v'|] eqn:U; [|discriminate].
    injection H as <-.
    destruct (unsigned_numeral py _ _ U) as (ds & Hds & <- & Hlen).
    exists [45%N], (-1)%Z, r, ds.
    split; [reflexivity|]; split; [constructor|]; split; [assumption|].
    split; [|lia].
    eapply exceeds_limit_mono; [|exact Hlim].
    rewrite Hlen; simpl List.length; lia.
  - intros H Hlim.
    destruct (unsigned_numeral py _ _ H) as (ds & Hds & <- & Hlen).
    exists [], 1%Z, (c :: r), ds.
    split; [reflexivity|]; split; [constructor|]; split; [assumption|].
    split; [now rewrite Hlen | now rewrite Z.mul_1_l].
Qed.

Lemma int_plain_integer py s v :
  plain_integer s = Some v ->
  Py.exceeds_limit py (N.of_nat (List.length s)) = false ->
  Py.int py s = Ok v.
Proof. intros H Hlim; now apply int_complete, plain_integer_literal. Qed.

(** ** More on records *)

Lemma record_first_occurrence py i line pre post :
  first_occurrence sep pre post (Py.strip line) ->
  record py i line
  = Some {| id := Py.str i; title := Py.strip pre;
            year := year_of (Py.int py (Py.strip post)); rating := 0 |}.
Proof.
  intros H; destruct (first_occurrence_find _ _ _ H) as (k & F & <- & <-).
  unfold record; destruct (Py.strip line) as [|c l] eqn:E.
  - discriminate.
  - now rewrite F.
Qed.

Lemma record_no_separator py i line :
  Py.strip line <> [] -> ~ occurs sep (Py.strip line) ->
  record py i line
  = Some {| id := Py.str i; title := Py.strip line;
            year := None; rating := 0 |}.
Proof.
  intros Hne Hno; unfold record.
  apply contains_false in Hno; unfold Py.contains in Hno.
  destruct (Py.strip line) as [|c l]; [congruence|].
  destruct (Py.find sep (c :: l)); [discriminate | reflexivity].
Qed.

Lemma record_title_no_separator py i line it :
  record py i line = Some it -> ~ occurs sep (title it).
Proof.
  intros H.
  destruct (Py.contains sep (Py.strip line)) eqn:C.
  - apply contains_occurs in C as (a & b & C).
    assert (exists pre post, first_occurrence sep pre post (Py.strip line))
      as (pre & post & Hf).
    { assert (occurs sep (Py.strip line)) as Ho by now exists a, b.
      apply contains_occurs in Ho; unfold Py.contains in Ho.
      destruct (Py.find sep (Py.strip line)) as [k|] eqn:F; [|discriminate].
      apply find_Some in F as (F & _); eauto. }
    rewrite (record_first_occurrence py i line pre post Hf) in H.
    injection H as <-; cbn [title].
    intros Ho; apply (first_occurrence_before _ _ _ Hf).
    destruct (strip_substring pre) as (ws1 & ws2 & E & _).
    rewrite E, <- !app_assoc.
    change (ws1 ++ Py.strip pre ++ ws2 ++ [SPACE; EM_DASH])
      with (ws1 ++ Py.strip pre ++ (ws2 ++ [SPACE; EM_DASH])).
    now apply occurs_app.
  - apply contains_false in C.
    assert (Py.strip line <> []) as Hne.
    { intros E; unfold record in H; now rewrite E in H. }
    rewrite (record_no_separator py i line Hne C) in H.
    now injection H as <-.
Qed.

Lemma stripped_between (a m b : unicode) :
  a <> [] -> b <> [] -> stripped a -> stripped b -> stripped (a ++ m ++ b).
Proof.
  intros Ha Hb (Hhead & _) (_ & Hlast); split.
  - destruct a as [|c r]; [congruence|].
    intros c' r' [= <- _]; now apply (Hhead c r).
  - destruct (@exists_last _ b Hb) as (u0 & c0 & ->).
    intros u c E.
    rewrite !app_assoc in E; apply app_inj_tail in E as (_ & <-).
    now apply (Hlast u0 c0).
Qed.

Lemma str_chars z : Forall (fun c => Py.isspace c = false) (Py.str z).
Proof.
  assert (forall d, Forall (fun c => Py.isspace c = false) (Py.uint_chars d))
    as H by (induction d; simpl; constructor; auto).
  unfold Py.str; destruct (Z.to_int z); [apply H | constructor; [reflexivity | apply H]].
Qed.

Lemma str_nonempty z : Py.str z <> [].
Proof.
  intros E; pose proof (plain_integer_str z) as H.
  now rewrite E in H.
Qed.

Lemma str_stripped z : stripped (Py.str z).
Proof.
  pose proof (str_chars z) as H; rewrite Forall_forall in H; split.
  - intros c r E; apply H; rewrite E; now left.
  - intros u c E; apply H; rewrite E, in_app_iff; right; now left.
Qed.

(** X3: a well-formed line is read back as written: for a title that is
    not empty, is trimmed and does not run into a separator, and any
    integer whose decimal form is within the digit limit, the line made
    of the title, the separator and the decimal form of the integer, with
    any white space around it, gives exactly that title and that integer
    as year. *)
Theorem X3_well_formed_line py i t v ws1 ws2 items :
  t <> [] -> stripped t -> ~ occurs sep (t ++ [SPACE; EM_DASH]) ->
  Py.exceeds_limit py (N.of_nat (List.length (Py.str v))) = false ->
  whitespace ws1 -> whitespace ws2 ->
  loop_body py i (ws1 ++ (t ++ sep ++ Py.str v) ++ ws2) items
  = Ok (items ++ [ {| id := Py.str i; title := t;
                      year := Some v; rating := 0 |} ]).
Proof.
  intros Hne Ht Hno Hlim H1 H2.
  rewrite loop_body_record.
  assert (Py.strip (ws1 ++ (t ++ sep ++ Py.str v) ++ ws2)
          = t ++ sep ++ Py.str v) as E.
  { rewrite strip_around by assumption.
    apply strip_fixed, stripped_between;
      auto using str_nonempty, str_stripped. }
  rewrite (record_first_occurrence py i _ t (Py.str v))
    by (rewrite E; now apply first_occurrence_intro).
  rewrite (strip_fixed t Ht), (strip_fixed _ (str_stripped v)).
  rewrite (int_plain_integer py _ v (plain_integer_str v) Hlim).
  reflexivity.
Qed.

Lemma X3_witness :
  loop_body cpython 12 ([SPACE] ++ (lit "Rome" ++ sep ++ Py.str (-44)) ++ [NEWLINE]) []
  = Ok ([] ++ [ {| id := Py.str 12; title := lit "Rome";
                   year := Some (-44)%Z; rating := 0 |} ]).
Proof.
  apply (X3_well_formed_line cpython 12 (lit "Rome") (-44) [SPACE] [NEWLINE] []).
  - discriminate.
  - split; intros ? ? E; vm_compute in E.
    + now injection E as <- _.
    + destruct u as [|? [|? [|? [|? [|? ?]]]]]; try discriminate E.
      now injection E as _ _ _ <-.
  - apply contains_false; vm_compute; reflexivity.
  - reflexivity.
  - repeat constructor.
  - repeat constructor.
Defined.

(** X4: the part of C1 that holds as stated: when the stripped text after
    the first separator is an optional sign followed by ASCII digits, and
    is not longer than the digit limit allows, the year is that
    integer. *)
Theorem X4_plain_year py i line pre post v items :
  first_occurrence sep pre post (Py.strip line) ->
  plain_integer (Py.strip post) = Some v ->
  Py.exceeds_limit py (N.of_nat (List.length (Py.strip post))) = false ->
  loop_body py i line items
  = Ok (items ++ [ {| id := Py.str i; title := Py.strip pre;
                      year := Some v; rating := 0 |} ]).
Proof.
  intros Hf Hv Hlim.
  rewrite loop_body_record, (record_first_occurrence py i line pre post Hf).
  now rewrite (int_plain_integer py _ v Hv Hlim).
Qed.

Lemma X4_witness :
  loop_body cpython 1 (lit "Foo — +007") []
  = Ok ([] ++ [ {| id := Py.str 1; title := Py.strip (lit "Foo");
                   year := Some 7%Z; rating := 0 |} ]).
Proof.
  apply (X4_plain_year cpython 1 (lit "Foo — +007") (lit "Foo") (lit "+007")).
  - change (Py.strip (lit "Foo — +007")) with (lit "Foo" ++ sep ++ lit "+007").
    apply first_occurrence_intro, contains_false; vm_compute; reflexivity.
  - reflexivity.
  - reflexivity.
Defined.

(** X5: white space around a line, such as indentation, trailing blanks
    and the line terminator, never changes what the line contributes. *)
Theorem X5_surrounding_whitespace py i line ws1 ws2 items :
  whitespace ws1 -> whitespace ws2 ->
  loop_body py i (ws1 ++ line ++ ws2) items = loop_body py i line items.
Proof.
  intros H1 H2; rewrite !loop_body_record; unfold record.
  now rewrite strip_around.
Qed.

Lemma X5_witness :
  loop_body cpython 2 (lit "  " ++ lit "The Wire" ++ [13%N; NEWLINE]) []
  = loop_body cpython 2 (lit "The Wire") [].
Proof.
  apply (X5_surrounding_whitespace cpython 2 (lit "The Wire")
           (lit "  ") [13%N; NEWLINE] []); repeat constructor.
Defined.

(** X6: no title of the output contains the separator: a title is the
    stripped part before the first separator of its line, or a line that
    has none. *)
Theorem X6_title_without_separator py lines :
  exists items,
    convert py lines = Ok items /\
    Forall (fun it => ~ occurs sep (title it)) items.
Proof.
  destruct (convert_nonblank py lines) as (items & Hc & HF).
  exists items; split; [exact Hc|].
  eapply records_Forall; [|exact HF].
  intros i line it; apply record_title_no_separator.
Qed.

(** X7: the titles of the output are in normal form: converting the list
    of titles again gives one record per title, in order, numbered from 1
    without gaps, with the same title and no year. *)
Theorem X7_titles_convert_to_themselves py lines :
  exists items,
    convert py lines = Ok items /\
    convert py (map title items)
    = Ok (map (fun p => {| id := Py.str (fst p); title := snd p;
                           year := None; rating := 0 |})
            (enumerate 1 (map title items))).
Proof.
  destruct (convert_nonblank py lines) as (items & Hc & HF).
  exists items; split; [exact Hc|].
  rewrite convert_records.
  assert (Forall (fun t => t <> [] /\ stripped t /\ ~ occurs sep t)
            (map title items)) as Hts.
  { apply Forall_map.
    eapply records_Forall; [|exact HF]; cbv beta.
    intros i line it H; split; [|split].
    - pose proof (record_Some_nonblank _ _ _ _ H) as Hnb.
      destruct (record_nonblank py i line Hnb) as (it' & E & _ & _ & Ht).
      congruence.
    - now apply (record_title_stripped py i line).
    - now apply (record_title_no_separator py i line). }
  clear Hc HF; f_equal; generalize 1%Z as start.
  induction Hts as [|t ts (Hne & Hs & Hno) _ IH]; intros start; simpl;
    [reflexivity|].
  rewrite IH, record_no_separator; rewrite (strip_fixed t Hs); auto.
Qed.

(** ** The JSON text *)

Lemma unhex_hex n : (n < 16)%N -> unhex (Json.hex n) = n.
Proof.
  intros H; unfold unhex, Json.hex.
  destruct (n <? 10)%N eqn:E.
  - replace (48 + n <? 58)%N with true by (symmetry; nbool; lia). lia.
  - replace (87 + n <? 58)%N with false by (symmetry; nbool; lia). lia.
Qed.

Lemma read_string_escape c rest :
  read_string (Json.escape c ++ rest) = read_more c (read_string rest).
Proof.
  unfold Json.escape.
  destruct (c =? 34)%N eqn:E34; [apply N.eqb_eq in E34 as ->; reflexivity|].
  destruct (c =? 92)%N eqn:E92; [apply N.eqb_eq in E92 as ->; reflexivity|].
  destruct (c =? 10)%N eqn:E10; [apply N.eqb_eq in E10 as ->; reflexivity|].
  destruct (c =? 13)%N eqn:E13; [apply N.eqb_eq in E13 as ->; reflexivity|].
  destruct (c =? 9)%N eqn:E9; [apply N.eqb_eq in E9 as ->; reflexivity|].
  destruct (c =? 8)%N eqn:E8; [apply N.eqb_eq in E8 as ->; reflexivity|].
  destruct (c =? 12)%N eqn:E12; [apply N.eqb_eq in E12 as ->; reflexivity|].
  destruct (c <? 32)%N eqn:E32.
  - cbn [app read_string].
    change (92 =? 34)%N with false; change (92 =? 92)%N with true.
    change (117 =? 117)%N with true; cbv iota.
    rewrite !unhex_hex.
    + f_equal. symmetry; rewrite N.mul_comm; apply N.div_mod'.
    + apply N.mod_lt; lia.
    + apply N.Div0.div_lt_upper_bound; nbool; lia.
  - cbn [app read_string]; now rewrite E34, E92.
Qed.

Lemma read_string_escaped s rest :
  read_string (flat_map Json.escape s ++ QUOTE :: rest) = Some (s, rest).
Proof.
  induction s as [|c s IH]; [reflexivity|].
  simpl flat_map; rewrite <- app_assoc, read_string_escape, IH; reflexivity.
Qed.

Lemma escaped_inj s s' rest rest' :
  flat_map Json.escape s ++ QUOTE :: rest
  = flat_map Json.escape s' ++ QUOTE :: rest' ->
  s = s' /\ rest = rest'.
Proof.
  intros H; apply (f_equal read_string) in H.
  rewrite !read_string_escaped in H; now injection H.
Qed.

Lemma int_span_app a rest :
  Forall (fun c => int_char c = true) a ->
  match rest with [] => True | c :: _ => int_char c = false end ->
  int_span (a ++ rest) = (a, rest).
Proof.
  intros Ha Hrest; induction Ha as [|c a Hc _ IH]; simpl.
  - destruct rest as [|c r]; [reflexivity|]; simpl; now rewrite Hrest.
  - now rewrite Hc, IH.
Qed.

Lemma str_int_chars z : Forall (fun c => int_char c = true) (Py.str z).
Proof.
  assert (forall d, Forall (fun c => int_char c = true) (Py.uint_chars d))
    as H by (induction d; simpl; constructor; auto).
  unfold Py.str; destruct (Z.to_int z);
    [apply H | constructor; [reflexivity | apply H]].
Qed.

Lemma str_delimited_inj z z' c c' r r' :
  int_char c = false -> int_char c' = false ->
  Py.str z ++ c :: r = Py.str z' ++ c' :: r' ->
  z = z' /\ c :: r = c' :: r'.
Proof.
  intros Hc Hc' H; apply (f_equal int_span) in H.
  rewrite !int_span_app in H by (auto using str_int_chars).
  injection H as H1 H2 H3; split; [now apply str_inj | congruence].
Qed.

Lemma encode_year_inj y y' r r' :
  Json.encode_year y ++ 44%N :: r = Json.encode_year y' ++ 44%N :: r' ->
  y = y' /\ r = r'.
Proof.
  destruct y as [z|], y' as [z'|]; simpl Json.encode_year; intros H.
  - apply str_delimited_inj in H as (-> & H); try reflexivity.
    now injection H as ->.
  - exfalso; revert H.
    assert (forall x, Py.str z ++ 44%N :: x <> lit "null" ++ 44%N :: r') as G.
    { intros x H.
      pose proof (str_int_chars z) as Hz; pose proof (str_nonempty z) as Hne.
      destruct (Py.str z) as [|c s]; [congruence|].
      inversion Hz as [|? ? Hc _]; subst.
      injection H as -> _; discriminate. }
    apply G.
  - exfalso; symmetry in H; revert H.
    assert (forall x, Py.str z' ++ 44%N :: x <> lit "null" ++ 44%N :: r) as G.
    { intros x H.
      pose proof (str_int_chars z') as Hz; pose proof (str_nonempty z') as Hne.
      destruct (Py.str z') as [|c s]; [congruence|].
      inversion Hz as [|? ? Hc _]; subst.
      injection H as -> _; discriminate. }
    apply G.
  - apply app_inv_head in H; now injection H as ->.
Qed.

Lemma encode_item_normal it rest :
  Json.encode_item it ++ rest
  = lit "{" ++ Json.newline_indent 2 ++ QUOTE :: lit "id" ++ QUOTE :: lit ": "
    ++ QUOTE :: flat_map Json.escape (id it)
    ++ QUOTE :: lit "," ++ Json.newline_indent 2
    ++ QUOTE :: lit "title" ++ QUOTE :: lit ": "
    ++ QUOTE :: flat_map Json.escape (title it)
    ++ QUOTE :: lit "," ++ Json.newline_indent 2
    ++ QUOTE :: lit "year" ++ QUOTE :: lit ": "
    ++ Json.encode_year (year it)
    ++ 44%N :: Json.newline_indent 2
    ++ QUOTE :: lit "rating" ++ QUOTE :: lit ": "
    ++ Py.str (rating it)
    ++ NEWLINE :: lit "  }" ++ rest.
Proof.
  unfold Json.encode_item, Json.member, Json.encode_basestring.
  cbn [Json.join].
  change (flat_map Json.escape (lit "id")) with (lit "id").
  change (flat_map Json.escape (lit "title")) with (lit "title").
  change (flat_map Json.escape (lit "year")) with (lit "year").
  change (flat_map Json.escape (lit "rating")) with (lit "rating").
  change (Json.newline_indent 1 ++ lit "}") with (NEWLINE :: lit "  }").
  change (lit ",") with [44%N].
  repeat (rewrite <- ?app_assoc, <- ?app_comm_cons); cbn [app].
  reflexivity.
Qed.

Ltac peel H :=
  repeat first [ apply app_inv_head in H | injection H as H ].

Lemma encode_item_inj a b r r' :
  Json.encode_item a ++ r = Json.encode_item b ++ r' -> a = b /\ r = r'.
Proof.
  intros H; rewrite !encode_item_normal in H.
  peel H. apply escaped_inj in H as (Hid & H).
  peel H. apply escaped_inj in H as (Htitle & H).
  peel H. apply encode_year_inj in H as (Hyear & H).
  peel H. apply str_delimited_inj in H as (Hrating & H); try reflexivity.
  peel H.
  destruct a, b; simpl in *; subst; now split.
Qed.

Lemma join_items_inj a : forall b,
  a <> [] -> b <> [] ->
  Json.join (lit "," ++ Json.newline_indent 1) (map Json.encode_item a)
  ++ Json.newline_indent 0 ++ lit "]"
  = Json.join (lit "," ++ Json.newline_indent 1) (map Json.encode_item b)
    ++ Json.newline_indent 0 ++ lit "]" ->
  a = b.
Proof.
  induction a as [|x a IH]; intros [|y b] Ha Hb; try congruence.
  destruct a as [|x2 a], b as [|y2 b]; cbn [map Json.join];
    rewrite <- ?app_assoc; intros H;
    apply encode_item_inj in H as (-> & H); try discriminate H.
  - reflexivity.
  - f_equal; apply IH; try discriminate.
    cbn [map]; now repeat apply app_inv_head in H.
Qed.

(** X8: the text printed determines the records: two different lists of
    records are never printed as the same text, so nothing of a record is
    lost or blurred by the encoding, whatever characters its title
    holds. *)
Theorem X8_output_determines_records a b :
  Json.dumps a = Json.dumps b -> a = b.
Proof.
  destruct a as [|x a], b as [|y b]; unfold Json.dumps; intros H;
    try reflexivity; try discriminate H.
  do 2 apply app_inv_head in H.
  apply join_items_inj in H; [exact H | discriminate | discriminate].
Qed.

Lemma X8_witness :
  [ {| id := lit "1"; title := lit "a\b"; year := None; rating := 0 |} ]
  = [ {| id := lit "1"; title := lit "a\b"; year := None; rating := 0 |} ].
Proof.
  apply (X8_output_determines_records
           [ {| id := lit "1"; title := lit "a\b"; year := None; rating := 0 |} ]
           [ {| id := lit "1"; title := lit "a\b"; year := None; rating := 0 |} ]).
  reflexivity.
Defined.

(** ** The layout of the JSON text *)

Lemma newlines_app a b : newlines (a ++ b) = (newlines a + newlines b)%nat.
Proof. unfold newlines; now rewrite filter_app, length_app. Qed.

Lemma newlines_absent s : ~ In NEWLINE s -> newlines s = 0%nat.
Proof.
  unfold newlines; induction s as [|c s IH]; [reflexivity|].
  intros H; cbn [filter]; destruct (NEWLINE =? c)%N eqn:E.
  - apply N.eqb_eq in E; exfalso; apply H; now left.
  - apply IH; intros Hin; apply H; now right.
Qed.

Lemma escape_no_newline c : ~ In NEWLINE (Json.escape c).
Proof.
  unfold Json.escape, Json.hex, NEWLINE.
  destruct (c =? 34)%N; [simpl; intuition lia|].
  destruct (c =? 92)%N; [simpl; intuition lia|].
  destruct (c =? 10)%N eqn:E10; [simpl; intuition lia|].
  destruct (c =? 13)%N; [simpl; intuition lia|].
  destruct (c =? 9)%N; [simpl; intuition lia|].
  destruct (c =? 8)%N; [simpl; intuition lia|].
  destruct (c =? 12)%N; [simpl; intuition lia|].
  destruct (c <? 32)%N.
  - generalize (c / 16)%N (c mod 16)%N; intros q m.
    destruct (q <? 10)%N, (m <? 10)%N; cbn [In]; intuition (try discriminate; lia).
  - apply N.eqb_neq in E10; simpl; intuition congruence.
Qed.

Lemma escaped_no_newline s : ~ In NEWLINE (flat_map Json.escape s).
Proof.
  intros H; apply in_flat_map in H as (c & _ & H).
  now apply (escape_no_newline c).
Qed.

Lemma str_no_newline z : ~ In NEWLINE (Py.str z).
Proof.
  intros H; pose proof (str_int_chars z) as Hz.
  rewrite Forall_forall in Hz; apply Hz in H; discriminate.
Qed.

Lemma encode_year_no_newline y : ~ In NEWLINE (Json.encode_year y).
Proof.
  destruct y as [z|]; [apply str_no_newline|].
  vm_compute; intuition discriminate.
Qed.

Lemma newlines_cons c s :
  newlines (c :: s) = ((if (NEWLINE =? c)%N then 1 else 0) + newlines s)%nat.
Proof. unfold newlines; cbn [filter]; now destruct (NEWLINE =? c)%N. Qed.

Lemma newlines_encode_item it : newlines (Json.encode_item it) = 5%nat.
Proof.
  rewrite <- (app_nil_r (Json.encode_item it)), encode_item_normal.
  repeat (rewrite newlines_app || rewrite newlines_cons).
  rewrite !(newlines_absent _ (escaped_no_newline _)).
  rewrite !(newlines_absent _ (str_no_newline _)).
  rewrite !(newlines_absent _ (encode_year_no_newline _)).
  reflexivity.
Qed.

Lemma newlines_join_items x xs :
  newlines (Json.join (lit "," ++ Json.newline_indent 1)
              (map Json.encode_item (x :: xs)))
  = (5 + 6 * List.length xs)%nat.
Proof.
  revert x; induction xs as [|y xs IH]; intros x.
  - cbn [map Json.join]; rewrite newlines_encode_item; reflexivity.
  - change (map Json.encode_item (x :: y :: xs))
      with (Json.encode_item x :: map Json.encode_item (y :: xs)).
    change (Json.join ?s (Json.encode_item x :: map Json.encode_item (y :: xs)))
      with (Json.encode_item x ++ s ++ Json.join s (map Json.encode_item (y :: xs))).
    rewrite !newlines_app, newlines_encode_item, IH.
    change (newlines (lit ",")) with 0%nat.
    change (newlines (Json.newline_indent 1)) with 1%nat.
    simpl List.length; lia.
Qed.

(** X9: the layout of the output is fixed by the number of records: the
    empty list is printed on one line, and every record takes exactly six
    lines between the two brackets, whatever characters its title holds,
    because line breaks inside strings are escaped. *)
Theorem X9_six_lines_per_record items :
  newlines (Json.dumps items)
  = match items with
    | [] => 0%nat
    | _ :: _ => (6 * List.length items + 1)%nat
    end.
Proof.
  destruct items as [|x xs]; [reflexivity|].
  unfold Json.dumps.
  rewrite !newlines_app, newlines_join_items.
  change (newlines (lit "[")) with 0%nat.
  change (newlines (lit "]")) with 0%nat.
  change (newlines (Json.newline_indent 1)) with 1%nat.
  change (newlines (Json.newline_indent 0)) with 1%nat.
  simpl List.length; lia.
Qed.

Lemma escape_as_is s :
  forallb printed_as_is s = true -> flat_map Json.escape s = s.
Proof.
  induction s as [|c s IH]; [reflexivity|]; simpl forallb.
  rewrite andb_true_iff; intros (Hc & Hs).
  cbn [flat_map]; rewrite (IH Hs).
  unfold printed_as_is in Hc; unfold Json.escape.
  apply andb_true_iff in Hc as (Hc & H32).
  apply andb_true_iff in Hc as (H34 & H92).
  apply negb_true_iff in H34, H92; rewrite H34, H92.
  apply N.leb_le in H32.
  replace (c =? 10)%N with false by (symmetry; nbool; lia).
  replace (c =? 13)%N with false by (symmetry; nbool; lia).
  replace (c =? 9)%N with false by (symmetry; nbool; lia).
  replace (c =? 8)%N with false by (symmetry; nbool; lia).
  replace (c =? 12)%N with false by (symmetry; nbool; lia).
  replace (c <? 32)%N with false by (symmetry; nbool; lia).
  reflexivity.
Qed.

Lemma occurs_trans a b c : occurs a b -> occurs b c -> occurs a c.
Proof. intros Hab (x & y & ->); now apply occurs_app. Qed.

Lemma occurs_skip_app x a b : occurs x b -> occurs x (a ++ b).
Proof.
  intros H; rewrite <- (app_nil_r b); now apply occurs_app.
Qed.

Lemma occurs_skip_cons x c b : occurs x b -> occurs x (c :: b).
Proof. apply (occurs_skip_app x [c] b). Qed.

Lemma join_occurs sep0 x l1 : forall l2,
  occurs x (Json.join sep0 (l1 ++ x :: l2)).
Proof.
  induction l1 as [|y l1 IH]; intros l2.
  - destruct l2 as [|z l2]; cbn [app Json.join].
    + exists [], []; now rewrite app_nil_r.
    + now exists [], (sep0 ++ Json.join sep0 (z :: l2)).
  - specialize (IH l2).
    change ((y :: l1) ++ x :: l2) with (y :: (l1 ++ x :: l2)).
    destruct (l1 ++ x :: l2) as [|z r] eqn:E;
      [now destruct l1|].
    change (Json.join sep0 (y :: z :: r))
      with (y ++ sep0 ++ Json.join sep0 (z :: r)).
    rewrite app_assoc, <- (app_nil_r (Json.join sep0 (z :: r))).
    now apply occurs_app.
Qed.

(** X10: text is printed unescaped: the title of a record that holds no
    quote, no backslash and no control character, whatever else it holds
    beyond ASCII, stands in the output between two quotes exactly as it
    is. *)
Theorem X10_title_printed_as_is items it :
  In it items -> forallb printed_as_is (title it) = true ->
  occurs (QUOTE :: title it ++ [QUOTE]) (Json.dumps items).
Proof.
  intros Hin Hclean.
  apply in_split in Hin as (l1 & l2 & ->).
  assert (occurs (QUOTE :: title it ++ [QUOTE]) (Json.encode_item it)) as H1.
  { rewrite <- (app_nil_r (Json.encode_item it)), encode_item_normal.
    rewrite (escape_as_is _ Hclean).
    do 2 apply occurs_skip_app. apply occurs_skip_cons, occurs_skip_app.
    apply occurs_skip_cons, occurs_skip_app.
    apply occurs_skip_cons, occurs_skip_app.
    apply occurs_skip_cons; do 2 apply occurs_skip_app.
    apply occurs_skip_cons, occurs_skip_app.
    apply occurs_skip_cons, occurs_skip_app.
    eexists [], _; cbn [app]; rewrite <- app_assoc; reflexivity. }
  apply (occurs_trans _ _ _ H1).
  destruct (l1 ++ it :: l2) as [|x xs] eqn:E; [now destruct l1|].
  unfold Json.dumps; do 2 apply occurs_skip_app.
  apply (occurs_app _ []); rewrite <- E, map_app; cbn [map].
  apply join_occurs.
Qed.

Lemma X10_witness :
  occurs (QUOTE :: lit "Amélie 映画" ++ [QUOTE])
    (Json.dumps [ {| id := lit "1"; title := lit "Amélie 映画";
                     year := None; rating := 0 |} ]).
Proof.
  apply (X10_title_printed_as_is
           [ {| id := lit "1"; title := lit "Amélie 映画";
                year := None; rating := 0 |} ]
           {| id := lit "1"; title := lit "Amélie 映画";
              year := None; rating := 0 |}).
  - now left.
  - reflexivity.
Defined.

(** ** The command line, the empty output and concatenated inputs *)


Lemma lines_of_of_lines lines : lines_of (of_lines lines) = Ok lines.
Proof. induction lines as [|l lines IH]; simpl; [|rewrite IH]; reflexivity. Qed.

Lemma records_all_blank py lines : forall start,
  flat_map (fun p => emitted (record py (fst p) (snd p)))
    (enumerate start lines) = [] <->
  Forall (fun line => blank line = true) lines.
Proof.
  induction lines as [|l lines IH]; intros start; simpl.
  - split; [constructor | reflexivity].
  - destruct (blank l) eqn:B.
    + rewrite (record_blank py start l B); simpl; rewrite IH.
      split; [now constructor | now inversion 1].
    + destruct (record_nonblank py start l B) as (it & E & _).
      rewrite E; simpl; split; [discriminate | inversion 1; congruence].
Qed.



Lemma enumerate_app l1 l2 : forall start,
  enumerate start (l1 ++ l2)
  = enumerate start l1 ++ enumerate (start + Z.of_nat (List.length l1)) l2.
Proof.
  induction l1 as [|l l1 IH]; intros start; simpl.
  - now rewrite Z.add_0_r.
  - rewrite IH; do 3 f_equal; lia.
Qed.

(** X13: inputs compose: the records of two inputs put one after the
    other are the records of the first followed by the records of the
    second, the latter numbered from where the first input ends. *)
Theorem X13_concatenated_inputs py lines1 lines2 :
  exists items1 items2,
    convert py lines1 = Ok items1 /\
    for_loop py (1 + Z.of_nat (List.length lines1)) (of_lines lines2) []
    = Ok items2 /\
    convert py (lines1 ++ lines2) = Ok (items1 ++ items2).
Proof.
  unfold convert; rewrite !for_loop_of_lines; simpl app.
  do 2 eexists; split; [reflexivity | split; [reflexivity|]].
  now rewrite enumerate_app, flat_map_app.
Qed.
